(** * Craigslist listing monitor: craigslist_bot.go and main.js

    A shallow embedding of the two variants of the monitor and the
    properties of its poll / extract / insert / notify / expire cycle.

    Conventions.
    - A Go string is a byte sequence; it is a [string] here (a list of
      8-bit [ascii]).  JavaScript strings are modelled by their UTF-8
      bytes as well.
    - The rendered page reaches the extractor as a parsed DOM; the tree
      [Dom.node] is what goquery / the browser hand to the callbacks.
    - Everything the outside world decides (the clock, whether a database
      statement fails, the HTTP response) is an explicit input of the
      function that consults it.
    - Everything the program does to the outside world (lines printed,
      statements executed, requests posted, sleeping) is recorded in a
      trace of [event]s, in program order. *)

From Stdlib Require Import String Ascii List ZArith Lia Bool Arith.
From Stdlib Require Import Numbers.DecimalString.
Import ListNotations.
Open Scope string_scope.
Set Warnings "-register-all".

(* ================================================================== *)
(** ** Text primitives used by both variants *)
(* ================================================================== *)

Module Text.

(** The white space of C's isspace in the "C" locale, which is also what
    SQLite's sqlite3Isspace accepts: tab, line feed, vertical tab, form
    feed, carriage return, space. *)
Definition is_space (c : ascii) : bool :=
  let n := nat_of_ascii c in
  ((9 <=? n)%nat && (n <=? 13)%nat) || (n =? 32)%nat.

(** [s] backwards. *)
Fixpoint rev (s : string) : string :=
  match s with
  | EmptyString => EmptyString
  | String c s' => rev s' ++ String c EmptyString
  end.

(** The string of the bytes with the given codes. *)
Definition bytes (codes : list nat) : string :=
  fold_right (fun n s => String (ascii_of_nat n) s) EmptyString codes.

(** The white-space characters that Go's unicode.IsSpace and JavaScript's
    trim have in common, in UTF-8: U+0009 to U+000D, U+0020, U+00A0,
    U+1680, U+2000 to U+200A, U+2028, U+2029, U+202F, U+205F, U+3000. *)
Definition white_space_common : list string :=
  map bytes
      [[9]; [10]; [11]; [12]; [13]; [32];
       [194; 160];
       [225; 154; 128];
       [226; 128; 128]; [226; 128; 129]; [226; 128; 130]; [226; 128; 131];
       [226; 128; 132]; [226; 128; 133]; [226; 128; 134]; [226; 128; 135];
       [226; 128; 136]; [226; 128; 137]; [226; 128; 138];
       [226; 128; 168]; [226; 128; 169]; [226; 128; 175];
       [226; 129; 159];
       [227; 128; 128]].

(** unicode.IsSpace: the common ones and U+0085. *)
Definition go_space : list string := white_space_common ++ [bytes [194; 133]].

(** WhiteSpace and LineTerminator of ECMAScript: the common ones and
    U+FEFF. *)
Definition js_space : list string := white_space_common ++ [bytes [239; 187; 191]].

(** [s] without the longest run of characters of [ws] at its start.
    [skip] counts the bytes of a matched character still to be stepped
    over. *)
Fixpoint strip (ws : list string) (skip : nat) (s : string) : string :=
  match s with
  | EmptyString => EmptyString
  | String c s' =>
      match skip with
      | S k => strip ws k s'
      | O =>
          match find (fun p => String.prefix p s) ws with
          | Some p => strip ws (String.length p - 1) s'
          | None => s
          end
      end
  end.

Definition TrimLeft (ws : list string) (s : string) : string := strip ws 0 s.

(** The same from the end: the characters are matched backwards. *)
Definition TrimRight (ws : list string) (s : string) : string :=
  rev (strip (map rev ws) 0 (rev s)).

(** strings.TrimSpace *)
Definition TrimSpace (s : string) : string := TrimRight go_space (TrimLeft go_space s).

(** String.prototype.trim *)
Definition trim (s : string) : string := TrimRight js_space (TrimLeft js_space s).

Arguments TrimSpace : simpl never.
Arguments trim : simpl never.

Definition lower_char (c : ascii) : ascii :=
  let n := nat_of_ascii c in
  if (65 <=? n)%nat && (n <=? 90)%nat then ascii_of_nat (n + 32) else c.

(** strings.ToLower / String.prototype.toLowerCase on the ASCII letters.
    No character outside A-Z lower-cases to one of f, r, e, so the test
    [ToLower p = "free"] is decided exactly. *)
Fixpoint ToLower (s : string) : string :=
  match s with
  | EmptyString => EmptyString
  | String c s' => String (lower_char c) (ToLower s')
  end.

(** strings.Split(s, sep) / s.split(sep) for a non-empty separator:
    the pieces of [s] between the occurrences of [sep], scanned left to
    right.  [skip] counts the bytes of a separator still to be stepped
    over. *)
Fixpoint split_from (sep : string) (skip : nat) (s : string) : list string :=
  match s with
  | EmptyString => [EmptyString]
  | String c s' =>
      match skip with
      | S k => split_from sep k s'
      | O =>
          if String.prefix sep s
          then EmptyString :: split_from sep (String.length sep - 1) s'
          else match split_from sep 0 s' with
               | piece :: rest => String c piece :: rest
               | [] => [String c EmptyString]
               end
      end
  end.

Definition Split (s sep : string) : list string := split_from sep 0 s.

(** [sub] occurs in [s]. *)
Definition occurs_in (sub s : string) : Prop :=
  exists before after, s = before ++ sub ++ after.

(** Whether [sub] occurs in [s], as a test. *)
Fixpoint contains (sub s : string) : bool :=
  String.prefix sub s ||
  match s with
  | EmptyString => false
  | String _ s' => contains sub s'
  end.

(** "%d" of a status code. *)
Definition itoa (z : Z) : string := NilEmpty.string_of_int (Z.to_int z).

End Text.

(* ================================================================== *)
(** ** The parsed page *)
(* ================================================================== *)

Module Dom.

(** An HTML node: a run of text, or an element with its tag name, its
    attributes in source order and its children in document order. *)
Inductive node : Type :=
| TextNode (data : string)
| Element (tag : string) (attrs : list (string * string)) (children : list node).

(** [n] followed by all element nodes below it, in document order. *)
Fixpoint subtree (n : node) : list node :=
  match n with
  | TextNode _ => []
  | Element _ _ kids => n :: flat_map subtree kids
  end.

(** The element nodes strictly below [n], in document order. *)
Definition descendants (n : node) : list node :=
  match n with
  | TextNode _ => []
  | Element _ _ kids => flat_map subtree kids
  end.

(** Node.textContent: the text of all text nodes below [n], in order. *)
Fixpoint textContent (n : node) : string :=
  match n with
  | TextNode s => s
  | Element _ _ kids => String.concat "" (map textContent kids)
  end.

Fixpoint assoc (name : string) (l : list (string * string)) : option string :=
  match l with
  | [] => None
  | (k, v) :: l' => if String.eqb k name then Some v else assoc name l'
  end.

(** Element.getAttribute *)
Definition getAttribute (name : string) (n : node) : option string :=
  match n with
  | TextNode _ => None
  | Element _ attrs _ => assoc name attrs
  end.

(** ASCII white space of the HTML standard: tab, line feed, form feed,
    carriage return, space. *)
Definition is_html_space (c : ascii) : bool :=
  let n := nat_of_ascii c in
  (n =? 9)%nat || (n =? 10)%nat || (n =? 12)%nat || (n =? 13)%nat || (n =? 32)%nat.

(** The white-space separated tokens of a class attribute. *)
Fixpoint tokens_from (cur : string) (s : string) : list string :=
  match s with
  | EmptyString => match cur with EmptyString => [] | _ => [cur] end
  | String c s' =>
      if is_html_space c
      then match cur with
           | EmptyString => tokens_from EmptyString s'
           | _ => cur :: tokens_from EmptyString s'
           end
      else tokens_from (cur ++ String c EmptyString) s'
  end.

Definition classList (n : node) : list string :=
  match getAttribute "class" n with
  | Some v => tokens_from EmptyString v
  | None => []
  end.

Definition has_class (c : string) (n : node) : bool :=
  existsb (String.eqb c) (classList n).

Definition has_tag (t : string) (n : node) : bool :=
  match n with
  | TextNode _ => false
  | Element tag _ _ => String.eqb tag t
  end.

(** The four selectors of the program. *)
Definition sel_result (n : node) : bool :=      (* li.cl-search-result *)
  has_tag "li" n && has_class "cl-search-result" n.
Definition sel_anchor (n : node) : bool := has_tag "a" n.           (* a *)
Definition sel_priceinfo (n : node) : bool := has_class "priceinfo" n.
Definition sel_meta (n : node) : bool := has_class "meta" n.

(** goquery Find / querySelectorAll from one node: the matching
    descendants in document order. *)
Definition Find (sel : node -> bool) (n : node) : list node :=
  filter sel (descendants n).

(** querySelector: the first match, or null. *)
Definition querySelector (sel : node -> bool) (n : node) : option node :=
  hd_error (Find sel n).

(** goquery Selection.Attr: the attribute of the first node of the
    selection; [None] is exists = false. *)
Definition SelectionAttr (name : string) (sel : list node) : option string :=
  match sel with
  | [] => None
  | n :: _ => getAttribute name n
  end.

(** goquery Selection.Text: the text of every node of the selection,
    concatenated. *)
Definition SelectionText (sel : list node) : string :=
  String.concat "" (map textContent sel).

End Dom.

(* ================================================================== *)
(** ** The listings table *)
(* ================================================================== *)

(** The table [listings] as the three statements of the program see it.
    The row type and its UNIQUE column [listing_url] are parameters: the
    Go table has five data columns, the JavaScript table a sixth,
    [notified].  The AUTOINCREMENT [id] is read by no statement and is
    left out. *)
Module Store.
Section Table.

Variable row : Type.
Variable listing_url : row -> string.

Definition table : Type := list row.

Definition same_url (u : string) (r : row) : bool := String.eqb (listing_url r) u.

Definition present (u : string) (t : table) : bool := existsb (same_url u) t.

Definition lookup (u : string) (t : table) : option row := find (same_url u) t.

Definition rows_with (u : string) (t : table) : nat := List.length (filter (same_url u) t).

(** INSERT INTO listings (...) VALUES (...) ON CONFLICT(listing_url) DO NOTHING;
    the second component is the number of rows changed. *)
Definition insert_or_ignore (t : table) (r : row) : table * nat :=
  if present (listing_url r) t then (t, 0) else ((t ++ [r])%list, 1).

(** DELETE FROM listings WHERE cond; *)
Definition delete_where (cond : row -> bool) (t : table) : table * nat :=
  (filter (fun r => negb (cond r)) t, List.length (filter cond t)).

(** UPDATE listings SET ... WHERE listing_url = u; *)
Definition update_where (u : string) (set : row -> row) (t : table) : table * nat :=
  (map (fun r => if same_url u r then set r else r) t, rows_with u t).

(** The UNIQUE constraint on [listing_url]. *)
Definition unique (t : table) : Prop := NoDup (map listing_url t).

End Table.

Arguments table row : clear implicits.
Arguments same_url {row} listing_url u r.
Arguments present {row} listing_url u t.
Arguments lookup {row} listing_url u t.
Arguments rows_with {row} listing_url u t.
Arguments insert_or_ignore {row} listing_url t r.
Arguments delete_where {row} cond t.
Arguments update_where {row} listing_url u set t.
Arguments unique {row} listing_url t.

End Store.

(* ================================================================== *)
(** ** Date texts and their comparison in SQLite *)
(* ================================================================== *)

(** Both programs leave the test [posted < datetime('now', '-1 hour')] to
    SQLite.  The column is declared DATETIME, which gives it NUMERIC
    affinity; datetime() returns a text.  What SQLite compares is
    therefore the stored value, a number when the inserted text was a
    well-formed number and a text otherwise, with the text
    "YYYY-MM-DD HH:MM:SS" of the cut-off in UTC.  Times are whole seconds
    since 1970-01-01 00:00:00 UTC; the texts are right for the years 0000
    to 9999. *)
Module Sqlite.

Local Open Scope Z_scope.

Definition digit (n : Z) : ascii := ascii_of_nat (48 + Z.to_nat n).

Definition two (n : Z) : string :=
  String (digit (n / 10)) (String (digit (n mod 10)) EmptyString).

Definition four (n : Z) : string := (two (n / 100) ++ two (n mod 100))%string.

(** Year, month and day of the proleptic Gregorian calendar for a number
    of days since 1970-01-01, counted in 400-year eras that start on
    1 March. *)
Definition civil_from_days (days : Z) : Z * Z * Z :=
  let z := days + 719468 in
  let era := z / 146097 in
  let doe := z mod 146097 in
  let yoe := (doe - doe / 1460 + doe / 36524 - doe / 146096) / 365 in
  let doy := doe - (365 * yoe + yoe / 4 - yoe / 100) in
  let mp := (5 * doy + 2) / 153 in
  let d := doy - (153 * mp + 2) / 5 + 1 in
  let m := if mp <? 10 then mp + 3 else mp - 9 in
  let y := yoe + era * 400 + (if m <=? 2 then 1 else 0) in
  (y, m, d).

(** "YYYY-MM-DD HH:MM:SS" for the wall-clock reading [t]. *)
Definition civil_text (t : Z) : string :=
  let '(y, m, d) := civil_from_days (t / 86400) in
  let sod := t mod 86400 in
  (four y ++ "-" ++ two m ++ "-" ++ two d ++ " "
   ++ two (sod / 3600) ++ ":" ++ two (sod mod 3600 / 60) ++ ":" ++ two (sod mod 60))%string.

(** datetime('now', '-1 hour') when 'now' is [now]. *)
Definition datetime_now_minus_1_hour (now : Z) : string := civil_text (now - 3600).

Definition is_digit (c : ascii) : bool :=
  let n := nat_of_ascii c in ((48 <=? n)%nat && (n <=? 57)%nat).

Definition is_sign (c : ascii) : bool := Ascii.eqb c "+" || Ascii.eqb c "-".

Definition is_e (c : ascii) : bool := Ascii.eqb c "e" || Ascii.eqb c "E".

(** Only white space up to the end. *)
Fixpoint trailing (s : string) : bool :=
  match s with
  | EmptyString => true
  | String c s' => Text.is_space c && trailing s'
  end.

(** The digits of an exponent; [seen] when there was one already. *)
Fixpoint exp_digits (seen : bool) (s : string) : bool :=
  match s with
  | EmptyString => seen
  | String c s' => if is_digit c then exp_digits true s' else seen && trailing s
  end.

(** What follows the letter e: an optional sign and the digits. *)
Definition exponent (s : string) : bool :=
  match s with
  | EmptyString => false
  | String c s' => if is_sign c then exp_digits false s' else exp_digits false s
  end.

(** The digits after the point; [n] when the literal has a digit. *)
Fixpoint frac_digits (n : bool) (s : string) : bool :=
  match s with
  | EmptyString => n
  | String c s' =>
      if is_digit c then frac_digits true s'
      else if is_e c then n && exponent s'
      else n && trailing s
  end.

(** The digits before the point; [n] when the literal has a digit. *)
Fixpoint int_digits (n : bool) (s : string) : bool :=
  match s with
  | EmptyString => n
  | String c s' =>
      if is_digit c then int_digits true s'
      else if Ascii.eqb c "." then frac_digits n s'
      else if is_e c then n && exponent s'
      else n && trailing s
  end.

(** Whether a text is a well-formed integer or real literal, the texts
    that NUMERIC affinity turns into numbers: optional white space, an
    optional sign, digits with an optional point, at least one digit, an
    optional exponent with at least one digit, optional white space. *)
Fixpoint well_formed_number (s : string) : bool :=
  match s with
  | EmptyString => false
  | String c s' =>
      if Text.is_space c then well_formed_number s'
      else if is_sign c then int_digits false s'
      else int_digits false s
  end.

(** Two texts under the BINARY collation: byte by byte. *)
Definition text_lt (a b : string) : bool :=
  match String.compare a b with
  | Lt => true
  | _ => false
  end.

(** [stored < other] for a value stored from the text [stored] in a
    column of NUMERIC affinity and a text [other] that is no number: a
    number is less than every text. *)
Definition less_than_text (stored other : string) : bool :=
  if well_formed_number stored then true else text_lt stored other.

(** WHERE posted < datetime('now', '-1 hour') *)
Definition posted_before_cutoff (posted : string) (now : Z) : bool :=
  less_than_text posted (datetime_now_minus_1_hour now).

Arguments civil_text : simpl never.
Arguments posted_before_cutoff : simpl never.

End Sqlite.

(* ================================================================== *)
(** ** craigslist_bot.go *)
(* ================================================================== *)

Module Go.

Import Text Dom.

Record Listing : Type := {
  Title : string;
  Price : string;
  City : string;
  Posted : Z;               (* time.Time: whole seconds since 1970-01-01 UTC *)
  ListingURL : string
}.

(** The open database: the rows of [listings], columns title, price,
    city, posted, listing_url. *)
Definition DB : Type := Store.table Listing.

(** *** What the outside world decides during one pass of the loop *)

(** chromedp.Run followed by goquery.NewDocumentFromReader. *)
Inductive PageLoad : Type :=
| LoadFailed (err : string)
| ParseFailed (err : string)
| Loaded (doc : node).

(** http.NewRequest followed by client.Do. *)
Inductive HttpOutcome : Type :=
| RequestError (err : string)
| TransportError (err : string)
| Response (StatusCode : Z).

Record World : Type := {
  page : PageLoad;
  clock : nat -> Z;                      (* time.Now() in the callback for element i *)
  insert_error : nat -> option string;   (* err of db.Exec for listing i *)
  http : nat -> HttpOutcome;             (* the request made for listing i *)
  delete_error : option string;          (* err of db.Exec for the DELETE *)
  sql_now : Z;                           (* 'now' when the DELETE runs *)
  local_offset : Z -> Z                  (* time.Local: seconds east of UTC at an instant *)
}.

(** *** What the program does to the outside world *)

Record Request : Type := {
  Method : string;
  URL : string;
  Header : list (string * string);
  Body : string
}.

Inductive event : Type :=
| Printed (line : string)       (* fmt.Printf / fmt.Println *)
| ExecInsert (l : Listing)      (* db.Exec(insertQuery, ...) *)
| ExecDelete                    (* db.Exec(deleteQuery) *)
| ClientDo (req : Request)      (* client.Do(req) *)
| Slept (d : Z).                (* time.Sleep(d), d in nanoseconds *)

(** *** insertListing, deleteOldListings *)

(** The sql.Result of Exec is dropped; only err is returned. *)
Definition insertListing (db : DB) (fault : option string) (listing : Listing)
  : DB * option string :=
  match fault with
  | Some err => (db, Some err)
  | None => (fst (Store.insert_or_ignore ListingURL db listing), None)
  end.

Definition hour : Z := 3600.

(** "-07:00" of the layout: the offset in whole minutes, rounded towards
    zero, as a sign, the hours and the minutes. *)
Definition zone_text (offset : Z) : string :=
  let zone := Z.quot offset 60 in
  (if (zone <? 0)%Z then "-" else "+")
  ++ Sqlite.two (Z.abs zone / 60) ++ ":" ++ Sqlite.two (Z.abs zone mod 60).

(** The text the driver binds for listing.Posted: the time formatted with
    the layout "2006-01-02 15:04:05.999999999-07:00" in its own location,
    which for time.Now() is time.Local.  Posted is in whole seconds, so
    there is no fraction. *)
Definition posted_text (local : Z -> Z) (posted : Z) : string :=
  Sqlite.civil_text (posted + local posted) ++ zone_text (local posted).

(** WHERE posted < datetime('now', '-1 hour') *)
Definition older_than_an_hour (local : Z -> Z) (now : Z) (r : Listing) : bool :=
  Sqlite.posted_before_cutoff (posted_text local (Posted r)) now.

Arguments posted_text : simpl never.
Arguments older_than_an_hour : simpl never.

Definition deleteOldListings (db : DB) (local : Z -> Z) (now : Z) (fault : option string)
  : DB * option string :=
  match fault with
  | Some err => (db, Some err)
  | None => (fst (Store.delete_where (older_than_an_hour local now) db), None)
  end.

(** *** scrapeListings *)

(** The separator, U+00B7 MIDDLE DOT, bytes C2 B7. *)
Definition separator : string := String "194" (String "183" EmptyString).

(** How one call of the callback passed to Each ends. *)
Inductive callback : Type :=
| Returned                    (* the early return *)
| Appended (l : Listing)      (* listings = append(listings, listing) *)
| IndexOutOfRange.            (* run-time panic of the index expression *)

Definition each_result (now : Z) (s : node) : callback :=
  let title := match getAttribute "title" s with
               | Some t => t
               | None => "No title"
               end in
  match SelectionAttr "href" (Find sel_anchor s) with
  | None => Returned
  | Some link =>
      let price := TrimSpace (SelectionText (Find sel_priceinfo s)) in
      let metaText := TrimSpace (SelectionText (Find sel_meta s)) in
      match nth_error (Split metaText separator) 1 with
      | None => IndexOutOfRange
      | Some city =>
          Appended {| Title := title;
                      Price := price;
                      City := TrimSpace city;
                      Posted := now;
                      ListingURL := link |}
      end
  end.

(** Selection.Each over the matched elements from index [i] on, with
    the slice built so far; [None] when a callback panics. *)
Fixpoint Each (clock : nat -> Z) (i : nat) (sel : list node) (listings : list Listing)
  : option (list Listing) :=
  match sel with
  | [] => Some listings
  | s :: rest =>
      match each_result (clock i) s with
      | Returned => Each clock (S i) rest listings
      | Appended l => Each clock (S i) rest (listings ++ [l])%list
      | IndexOutOfRange => None
      end
  end.

Inductive scraped : Type :=
| Listings (listings : list Listing)    (* return listings, nil *)
| Failed (err : string)                 (* return listings, err *)
| Panicked.                             (* the panic leaves scrapeListings *)

(** The extraction step of scrapeListings:
    doc.Find("li.cl-search-result").Each(...) on an empty slice. *)
Definition extract (clock : nat -> Z) (doc : node) : option (list Listing) :=
  Each clock 0 (Find sel_result doc) [].

Definition scrapeListings (w : World) : scraped :=
  match page w with
  | LoadFailed err => Failed ("failed to load the page: " ++ err)
  | ParseFailed err => Failed ("failed to parse the page: " ++ err)
  | Loaded doc =>
      match extract (clock w) doc with
      | Some listings => Listings listings
      | None => Panicked
      end
  end.

(** *** sendNotification *)

Definition ntfyUrl : string := "https://ntfy.sh/charlottecraig".

Definition NewRequest (message : string) : Request :=
  {| Method := "POST";
     URL := ntfyUrl;
     Header := [("Title", "Craigslist Alert"); ("Priority", "high")];
     Body := message |}.

Definition sendNotification (message : string) (o : HttpOutcome) : list event :=
  match o with
  | RequestError err => [Printed ("Failed to create request: " ++ err)]
  | TransportError err =>
      [ClientDo (NewRequest message);
       Printed ("Failed to send notification: " ++ err)]
  | Response code =>
      [ClientDo (NewRequest message);
       if negb (code =? 200)%Z
       then Printed ("Failed to send notification: Status code " ++ itoa code)
       else Printed ("Notification sent: " ++ message)]
  end.

(** *** main *)

(** strings.ToLower(listing.Price) == "free" || listing.Price == "" || listing.Price == "()" *)
Definition price_condition (price : string) : bool :=
  String.eqb (ToLower price) "free" || String.eqb price "" || String.eqb price "()".

Definition alert (l : Listing) : string :=
  "New free or unknown price listing! " ++ Title l ++ " (" ++ Price l ++ ") " ++ City l.

(** The body of [for _, listing := range listings], for the listing at
    index [i]. *)
Definition range_body (w : World) (i : nat) (db : DB) (listing : Listing)
  : DB * list event :=
  match insertListing db (insert_error w i) listing with
  | (db', Some err) =>
      (db', [ExecInsert listing; Printed ("Failed to insert listing: " ++ err)])
  | (db', None) =>
      (db', ExecInsert listing ::
            (if price_condition (Price listing)
             then sendNotification (alert listing) (http w i)
             else []))
  end.

Fixpoint range (w : World) (i : nat) (db : DB) (listings : list Listing)
  : DB * list event :=
  match listings with
  | [] => (db, [])
  | listing :: rest =>
      let '(db1, tr1) := range_body w i db listing in
      let '(db2, tr2) := range w (S i) db1 rest in
      (db2, (tr1 ++ tr2)%list)
  end.

Definition Second : Z := 1000000000.

(** Arithmetic of int and of time.Duration: 64-bit two's complement. *)
Definition int64 (z : Z) : Z := ((z + 2 ^ 63) mod 2 ^ 64 - 2 ^ 63)%Z.

(** time.Duration(2+len(listings)%3) * time.Second *)
Definition delay (len : Z) : Z := int64 (int64 (2 + Z.rem len 3) * Second)%Z.

(** Where the process is after a pass: back at the select, waiting for
    the ticker, or gone. *)
Inductive status : Type := AwaitingTick | Crashed.

(** One pass of [case <-checkTicker.C]. *)
Definition tick (db : DB) (w : World) : DB * list event * status :=
  match scrapeListings w with
  | Failed err =>
      (db, [Printed ("Failed to scrape listings: " ++ err)], AwaitingTick)   (* continue *)
  | Panicked => (db, [], Crashed)
  | Listings listings =>
      let '(db1, tr1) := range w 0 db listings in
      let '(db2, err) :=
        deleteOldListings db1 (local_offset w) (sql_now w) (delete_error w) in
      let tr2 := ExecDelete ::
                 match err with
                 | Some e => [Printed ("Failed to delete old listings: " ++ e)]
                 | None => []
                 end in
      (db2,
       (tr1 ++ tr2 ++ [Slept (delay (Z.of_nat (List.length listings)))])%list,
       AwaitingTick)
  end.

(** The [for] loop over the ticks that fire. *)
Fixpoint loop (db : DB) (ticks : list World) : DB * list event * status :=
  match ticks with
  | [] => (db, [], AwaitingTick)
  | w :: later =>
      match tick db w with
      | (db1, tr1, Crashed) => (db1, tr1, Crashed)
      | (db1, tr1, AwaitingTick) =>
          let '(db2, tr2, st) := loop db1 later in
          (db2, (tr1 ++ tr2)%list, st)
      end
  end.

(** [main]: initDB, whose CREATE TABLE IF NOT EXISTS keeps the rows
    already in the file, then the loop.  [None] is the early return
    when the database cannot be initialized. *)
Definition main (init_error : option string) (file : DB) (ticks : list World)
  : option (DB * list event * status) :=
  match init_error with
  | Some err => None
  | None => Some (loop file ticks)
  end.

End Go.

(* ================================================================== *)
(** ** main.js *)
(* ================================================================== *)

(** main.js issues its statements without waiting for them: the INSERTs
    of a pass, then the DELETE, and only afterwards do the callbacks run
    that send the notifications and issue the UPDATEs.  Here each
    callback, with the request and the UPDATE it triggers, is run right
    after its own statement.  The table at the end is the same either
    way, since the DELETE does not look at [notified]; the order of the
    events in the trace is that of this convention, not of the
    program. *)
Module Js.

Import Text Dom.

Record listing : Type := {
  title : string;
  price : string;
  city : string;
  posted : string;          (* the text before the separator *)
  listing_url : string
}.

(** A row of [listings]: the five inserted columns and [notified]. *)
Record row : Type := {
  fields : listing;
  notified : bool
}.

Definition url_of (r : row) : string := listing_url (fields r).

Definition DB : Type := Store.table row.

(** puppeteer: launch, newPage, goto, waitForTimeout, evaluate. *)
Inductive PageLoad : Type :=
| Thrown (err : string)
| Loaded (document : node).

(** The promise chain of fetch(...).then(response => response.text()). *)
Inductive HttpOutcome : Type :=
| Rejected (err : string)
| Responded (status : Z) (text : string).

Record World : Type := {
  page : PageLoad;
  insert_error : nat -> option string;   (* err of the INSERT for listing i *)
  http : nat -> HttpOutcome;             (* the fetch made for listing i *)
  update_error : nat -> option string;   (* err of the UPDATE for listing i *)
  delete_error : option string;          (* err of the DELETE *)
  sql_now : Z                            (* 'now' when the DELETE runs *)
}.

Record Request : Type := {
  method : string;
  url : string;
  headers : list (string * string);
  body : string
}.

Inductive event : Type :=
| ConsoleError (line : string)
| ConsoleLog (line : string)
| RunInsert (l : listing)
| RunUpdate (u : string)
| RunDelete
| Fetch (req : Request).

(** A string is truthy when it is not empty. *)
Definition truthy (s : string) : bool := negb (String.eqb s "").

(** x || d, for x a string or null/undefined. *)
Definition or_else (x : option string) (d : string) : string :=
  match x with
  | Some s => if truthy s then s else d
  | None => d
  end.

(** The separator as main.js spells it: U+8DEF, bytes E8 B7 AF. *)
Definition separator : string :=
  String "232" (String "183" (String "175" EmptyString)).

(** The body of the forEach callback inside page.evaluate. *)
Definition item_of (item : node) : listing :=
  let title := or_else (getAttribute "title" item) "No title" in
  let price := match querySelector sel_priceinfo item with
               | Some e => trim (textContent e)
               | None => ""
               end in
  let metaText := match querySelector sel_meta item with
                  | Some e => trim (textContent e)
                  | None => ""
                  end in
  let city := match nth_error (Split metaText separator) 1 with
              | Some part => if truthy part then trim part else "Unknown City"
              | None => "Unknown City"
              end in
  let posted := match nth_error (Split metaText separator) 0 with
                | Some part => if truthy part then trim part else ""
                | None => ""
                end in
  let link := match querySelector sel_anchor item with
              | Some a => getAttribute "href" a
              | None => Some ""
              end in
  {| title := title;
     price := price;
     city := city;
     posted := posted;
     listing_url := or_else link "" |}.

Definition evaluate (document : node) : list listing :=
  map item_of (Find sel_result document).

(** scrapeListings: the listings, or the exception of the browser. *)
Definition scrapeListings (w : World) : string + list listing :=
  match page w with
  | Thrown err => inl err
  | Loaded document => inr (evaluate document)
  end.

Definition sendNotification (l : listing) (o : HttpOutcome) : list event :=
  let message := title l ++ " (" ++ or_else (Some (price l)) "Unknown Price" ++ ") " ++ city l in
  Fetch {| method := "POST";
           url := "https://ntfy.sh/charlottecraig";
           headers := [("Title", "New Craigslist Listing Alert");
                       ("Priority", "high");
                       ("Actions", "view, Open Listing, " ++ listing_url l ++ ", clear=true")];
           body := message |}
  :: match o with
     | Responded _ result => [ConsoleLog ("Notification sent: " ++ result)]
     | Rejected error => [ConsoleError ("Error sending notification: " ++ error)]
     end.

Definition set_notified (r : row) : row := {| fields := fields r; notified := true |}.

Definition markAsNotified (db : DB) (u : string) (fault : option string)
  : DB * list event :=
  match fault with
  | Some err => (db, [RunUpdate u; ConsoleError ("Failed to mark as notified: " ++ err)])
  | None => (fst (Store.update_where url_of u set_notified db), [RunUpdate u])
  end.

(** !price || price.toLowerCase() === 'free' || price === '()' *)
Definition price_condition (p : string) : bool :=
  negb (truthy p) || String.eqb (ToLower p) "free" || String.eqb p "()".

(** insertListing with its completion callback, for the listing at
    index [i]. *)
Definition insertListing (w : World) (i : nat) (db : DB) (l : listing)
  : DB * list event :=
  match insert_error w i with
  | Some err => (db, [RunInsert l; ConsoleError ("Failed to insert listing: " ++ err)])
  | None =>
      let '(db1, changes) :=
        Store.insert_or_ignore url_of db {| fields := l; notified := false |} in
      if (0 <? changes)%nat
      then if price_condition (price l)
           then let '(db2, tr) := markAsNotified db1 (listing_url l) (update_error w i) in
                (db2, (RunInsert l :: sendNotification l (http w i) ++ tr)%list)
           else (db1, [RunInsert l])
      else (db1, [RunInsert l])
  end.

Fixpoint insertAll (w : World) (i : nat) (db : DB) (listings : list listing)
  : DB * list event :=
  match listings with
  | [] => (db, [])
  | l :: rest =>
      let '(db1, tr1) := insertListing w i db l in
      let '(db2, tr2) := insertAll w (S i) db1 rest in
      (db2, (tr1 ++ tr2)%list)
  end.

(** processListings; [inl] is the rejected promise. *)
Definition processListings (w : World) (db : DB) : string + DB * list event :=
  match scrapeListings w with
  | inl err => inl err
  | inr listings => inr (insertAll w 0 db listings)
  end.

Definition deleteOldListings (w : World) (db : DB) : DB * list event :=
  match delete_error w with
  | Some err => (db, [RunDelete; ConsoleError ("Failed to delete old listings: " ++ err)])
  | None =>
      (fst (Store.delete_where
              (fun r => Sqlite.posted_before_cutoff (posted (fields r)) (sql_now w)) db),
       [RunDelete])
  end.

(** The function passed to setInterval. *)
Definition interval (w : World) (db : DB) : string + DB * list event :=
  match processListings w db with
  | inl err => inl err
  | inr (db1, tr1) =>
      let '(db2, tr2) := deleteOldListings w db1 in
      inr (db2, (tr1 ++ tr2)%list)
  end.

End Js.

(* ================================================================== *)
(** ** Dates as numbers *)
(* ================================================================== *)

Module Calendar.

Local Open Scope Z_scope.

(** The wall-clock readings of the years 0000 to 9999, the ones the
    texts of [Sqlite.civil_text] are right for. *)
Definition first_second : Z := -62167219200.
Definition last_second : Z := 253402300799.
Definition four_digit_year (t : Z) : Prop := first_second <= t <= last_second.

(** A date as the number YYYYMMDD. *)
Definition ymd (days : Z) : Z :=
  let '(y, m, d) := Sqlite.civil_from_days days in y * 10000 + m * 100 + d.

(** The date has a month and a day of the month. *)
Definition month_and_day (days : Z) : bool :=
  let '(_, m, d) := Sqlite.civil_from_days days in
  (1 <=? m) && (m <=? 12) && (1 <=? d) && (d <=? 31).

(** Day 0 of the era in which [Sqlite.civil_from_days] counts is
    0000-03-01. *)
Definition era_start : Z := -719468.

(** The [n] days from day [doe] of that era on are dates, each later than
    the one before; [prev] is the date before the first. *)
Fixpoint days_in_order (n : nat) (doe prev : Z) : bool :=
  match n with
  | O => true
  | S n' =>
      let '(y, m, d) := Sqlite.civil_from_days (era_start + doe) in
      let date := y * 10000 + m * 100 + d in
      if (1 <=? m) && (m <=? 12) && (1 <=? d) && (d <=? 31) && (prev <? date)
      then days_in_order n' (doe + 1) date
      else false
  end.

End Calendar.

(* ================================================================== *)
(** ** Notions used to state the properties *)
(* ================================================================== *)

Module Spec.

(** A Go listing with its Posted field blanked. *)
Definition undated (l : Go.Listing) : Go.Listing :=
  {| Go.Title := Go.Title l;
     Go.Price := Go.Price l;
     Go.City := Go.City l;
     Go.Posted := 0;
     Go.ListingURL := Go.ListingURL l |}.

(** A price that is worth a notification: empty, "free" in any case,
    or "()". *)
Definition notify_worthy (price : string) : Prop :=
  price = "" \/ Text.ToLower price = "free" \/ price = "()".

(** The price as a message shows it: [word] when it is empty. *)
Definition price_or (word price : string) : string :=
  if String.eqb price "" then word else price.

(** The message names the title, the price text and the city. *)
Definition says (message title price_text city : string) : Prop :=
  Text.occurs_in title message /\
  Text.occurs_in price_text message /\
  Text.occurs_in city message.

Definition is_request (e : Go.event) : bool :=
  match e with Go.ClientDo _ => true | _ => false end.

Definition is_insert (e : Go.event) : bool :=
  match e with Go.ExecInsert _ => true | _ => false end.

Definition is_delete (e : Go.event) : bool :=
  match e with Go.ExecDelete => true | _ => false end.

Definition is_sleep (e : Go.event) : bool :=
  match e with Go.Slept _ => true | _ => false end.

Definition is_fetch (e : Js.event) : bool :=
  match e with Js.Fetch _ => true | _ => false end.

(** The world [w] with other answers to its requests. *)
Definition with_http (w : Go.World) (answers : nat -> Go.HttpOutcome) : Go.World :=
  {| Go.page := Go.page w;
     Go.clock := Go.clock w;
     Go.insert_error := Go.insert_error w;
     Go.http := answers;
     Go.delete_error := Go.delete_error w;
     Go.sql_now := Go.sql_now w;
     Go.local_offset := Go.local_offset w |}.

Definition with_http_js (w : Js.World) (answers : nat -> Js.HttpOutcome) : Js.World :=
  {| Js.page := Js.page w;
     Js.insert_error := Js.insert_error w;
     Js.http := answers;
     Js.update_error := Js.update_error w;
     Js.delete_error := Js.delete_error w;
     Js.sql_now := Js.sql_now w |}.

(** Nothing is left to strip: the text is empty or starts with none of
    the characters. *)
Definition stripped (ws : list string) (s : string) : Prop :=
  s = ""%string \/ find (fun p => String.prefix p s) ws = None.

End Spec.

(* ================================================================== *)
(** ** Fixtures *)
(* ================================================================== *)

Module Fixture.

Import Dom.

Definition result (attrs : list (string * string)) (kids : list node) : node :=
  Element "li" (("class", "cl-search-result") :: attrs) kids.

Definition anchor (href : string) : node :=
  Element "a" [("href", href)] [TextNode "open"].

Definition div (class : string) (text : string) : node :=
  Element "div" [("class", class)] [TextNode text].

Definition body (items : list node) : node :=
  Element "body" [] [Element "ol" [] items].

(** A complete entry: title, link, price "Free", metadata
    "5m ago·Charlotte". *)
Definition couch_item : node :=
  result [("title", "Couch")]
         [anchor "/couch";
          div "priceinfo" "Free";
          div "meta" ("5m ago" ++ Go.separator ++ "Charlotte")%string].

(** An entry without any anchor. *)
Definition linkless_item : node :=
  result [("title", "Lamp")]
         [div "priceinfo" "";
          div "meta" ("1h ago" ++ Go.separator ++ "Concord")%string].

(** An entry with a link whose metadata has no separator. *)
Definition bare_meta_item : node :=
  result [("title", "Desk")]
         [anchor "/desk"; div "priceinfo" "$20"; div "meta" "just now"].

Definition couch (posted : Z) : Go.Listing :=
  {| Go.Title := "Couch"; Go.Price := "Free"; Go.City := "Charlotte";
     Go.Posted := posted; Go.ListingURL := "/couch" |}.

(** A world in which nothing fails: the page loads as [doc], the clock
    reads [now] throughout, every request is answered 200 and the local
    time zone is UTC. *)
Definition calm (doc : node) (now : Z) : Go.World :=
  {| Go.page := Go.Loaded doc;
     Go.clock := fun _ => now;
     Go.insert_error := fun _ => None;
     Go.http := fun _ => Go.Response 200;
     Go.delete_error := None;
     Go.sql_now := now;
     Go.local_offset := fun _ => 0%Z |}.

(** The same in a local time zone [offset] seconds east of UTC. *)
Definition zoned (offset : Z) (doc : node) (now : Z) : Go.World :=
  {| Go.page := Go.Loaded doc;
     Go.clock := fun _ => now;
     Go.insert_error := fun _ => None;
     Go.http := fun _ => Go.Response 200;
     Go.delete_error := None;
     Go.sql_now := now;
     Go.local_offset := fun _ => offset |}.

(** A world in which the page does not load. *)
Definition offline : Go.World :=
  {| Go.page := Go.LoadFailed "context deadline exceeded";
     Go.clock := fun _ => 0%Z;
     Go.insert_error := fun _ => None;
     Go.http := fun _ => Go.Response 200;
     Go.delete_error := None;
     Go.sql_now := 0%Z;
     Go.local_offset := fun _ => 0%Z |}.

(** A world in which the page loads as [doc] and the INSERT for the
    listing at index [bad] fails with "database is locked". *)
Definition locked_at (bad : nat) (doc : node) (now : Z) : Go.World :=
  {| Go.page := Go.Loaded doc;
     Go.clock := fun _ => now;
     Go.insert_error := fun i => if Nat.eqb i bad then Some "database is locked" else None;
     Go.http := fun _ => Go.Response 200;
     Go.delete_error := None;
     Go.sql_now := now;
     Go.local_offset := fun _ => 0%Z |}.

Definition calm_js (doc : node) : Js.World :=
  {| Js.page := Js.Loaded doc;
     Js.insert_error := fun _ => None;
     Js.http := fun _ => Js.Responded 200 "ok";
     Js.update_error := fun _ => None;
     Js.delete_error := None;
     Js.sql_now := 0%Z |}.

(** The same with the DELETE run at [now]. *)
Definition calm_js_at (doc : node) (now : Z) : Js.World :=
  {| Js.page := Js.Loaded doc;
     Js.insert_error := fun _ => None;
     Js.http := fun _ => Js.Responded 200 "ok";
     Js.update_error := fun _ => None;
     Js.delete_error := None;
     Js.sql_now := now |}.

End Fixture.

(* ================================================================== *)
(** ** Observations on pages and traces *)
(* ================================================================== *)

Module Obs.

(** [s] without its first [n] bytes. *)
Fixpoint drop (n : nat) (s : string) : string :=
  match n, s with
  | S k, String _ s' => drop k s'
  | _, _ => s
  end.

(** The href that the Go callback reads from a matched element. *)
Definition href_of (s : Dom.node) : option string :=
  Dom.SelectionAttr "href" (Dom.Find Dom.sel_anchor s).

(** The hrefs of the matched elements that have one, in document order. *)
Definition hrefs (doc : Dom.node) : list string :=
  flat_map (fun s => match href_of s with Some h => [h] | None => [] end)
           (Dom.Find Dom.sel_result doc).

(** The listings offered to the INSERT, in trace order. *)
Definition inserts (tr : list Go.event) : list Go.Listing :=
  flat_map (fun e => match e with Go.ExecInsert l => [l] | _ => [] end) tr.

(** The requests made, in trace order. *)
Definition requests (tr : list Go.event) : list Go.Request :=
  flat_map (fun e => match e with Go.ClientDo r => [r] | _ => [] end) tr.

(** The lines printed, in trace order. *)
Definition lines (tr : list Go.event) : list string :=
  flat_map (fun e => match e with Go.Printed s => [s] | _ => [] end) tr.

(** A world of craigslist_bot.go in which no INSERT fails. *)
Definition inserts_succeed (w : Go.World) : Prop :=
  forall i, Go.insert_error w i = None.


End Obs.

(* ================================================================== *)
(** * Properties *)
(* ================================================================== *)

Open Scope list_scope.

(** ** The table *)

Section TableFacts.

Context {row : Type}.
Variable key : row -> string.

Lemma present_iff (u : string) (t : Store.table row) :
  Store.present key u t = true <-> In u (map key t).
Proof.
  unfold Store.present, Store.same_url. rewrite existsb_exists, in_map_iff.
  split; intros [r [H1 H2]]; exists r.
  - apply String.eqb_eq in H2. tauto.
  - rewrite H1, String.eqb_refl. tauto.
Qed.

Lemma absent_rows_with (u : string) (t : Store.table row) :
  Store.present key u t = false -> Store.rows_with key u t = 0 /\ Store.lookup key u t = None.
Proof.
  unfold Store.rows_with, Store.lookup, Store.present.
  induction t as [|r t IH]; simpl; [tauto|].
  intros H. apply orb_false_iff in H. destruct H as [Hr Ht].
  rewrite Hr. auto.
Qed.

Lemma unique_rows_with (u : string) (t : Store.table row) :
  Store.unique key t -> Store.present key u t = true -> Store.rows_with key u t = 1.
Proof.
  unfold Store.unique, Store.rows_with.
  induction t as [|r t IH]; [discriminate|]. unfold Store.present; simpl; fold (Store.present key u t).
  intros Hnd H. inversion Hnd as [|k ks Hnotin Hnd']; subst.
  destruct (Store.same_url key u r) eqn:Hr; simpl.
  - f_equal. apply absent_rows_with.
    destruct (Store.present key u t) eqn:Hp; [|reflexivity].
    apply present_iff in Hp. apply String.eqb_eq in Hr. congruence.
  - apply IH; assumption.
Qed.

Lemma lookup_app_absent (u : string) (t : Store.table row) (r : row) :
  Store.present key u t = false -> key r = u -> Store.lookup key u (t ++ [r]) = Some r.
Proof.
  unfold Store.lookup. intros Habs Hk.
  induction t as [|a t IH]; simpl in *.
  - unfold Store.same_url. rewrite Hk, String.eqb_refl. reflexivity.
  - apply orb_false_iff in Habs. destruct Habs as [Ha Ht].
    rewrite Ha. auto.
Qed.

Lemma rows_with_app (u : string) (t1 t2 : Store.table row) :
  Store.rows_with key u (t1 ++ t2) = Store.rows_with key u t1 + Store.rows_with key u t2.
Proof.
  unfold Store.rows_with. rewrite filter_app, length_app. reflexivity.
Qed.

(** An insert leaves the rows that were there as they were. *)
Lemma insert_keeps_rows (t : Store.table row) (r : row) :
  exists added, fst (Store.insert_or_ignore key t r) = (t ++ added)%list.
Proof.
  unfold Store.insert_or_ignore.
  destruct (Store.present key (key r) t).
  - exists []. simpl. symmetry. apply app_nil_r.
  - exists [r]. reflexivity.
Qed.

(** The UNIQUE constraint holds of the empty table and is kept by the
    three statements. *)
Lemma unique_nil : Store.unique key [].
Proof. constructor. Qed.

Lemma insert_unique (t : Store.table row) (r : row) :
  Store.unique key t -> Store.unique key (fst (Store.insert_or_ignore key t r)).
Proof.
  unfold Store.insert_or_ignore, Store.unique. intros Hu.
  destruct (Store.present key (key r) t) eqn:Hp; simpl; [assumption|].
  rewrite map_app. simpl.
  apply NoDup_app; [assumption | repeat constructor; simpl; tauto |].
  intros x Hx [Hx'|[]]. subst x.
  apply present_iff in Hx. congruence.
Qed.

Lemma delete_unique (cond : row -> bool) (t : Store.table row) :
  Store.unique key t -> Store.unique key (fst (Store.delete_where cond t)).
Proof.
  unfold Store.unique. simpl.
  induction t as [|r t IH]; simpl; intros Hu; [assumption|].
  inversion Hu as [|k ks Hnotin Hnd]; subst.
  destruct (cond r); simpl; [auto|].
  constructor; [|auto].
  intros Hin. apply Hnotin. apply in_map_iff in Hin.
  destruct Hin as [x [Hx Hin]]. apply filter_In in Hin.
  apply in_map_iff. exists x. tauto.
Qed.

(** After a successful insert of [r] its URL is in the table exactly
    once. *)
Lemma insert_rows_with (t : Store.table row) (r : row) :
  Store.unique key t ->
  Store.rows_with key (key r) (fst (Store.insert_or_ignore key t r)) = 1.
Proof.
  intros Hu. unfold Store.insert_or_ignore.
  destruct (Store.present key (key r) t) eqn:Hp; simpl.
  - apply unique_rows_with; assumption.
  - rewrite rows_with_app. destruct (absent_rows_with _ _ Hp) as [H0 _].
    rewrite H0. unfold Store.rows_with, Store.same_url. simpl.
    rewrite String.eqb_refl. reflexivity.
Qed.

Lemma insert_present (t : Store.table row) (r : row) :
  Store.present key (key r) (fst (Store.insert_or_ignore key t r)) = true.
Proof.
  unfold Store.insert_or_ignore.
  destruct (Store.present key (key r) t) eqn:Hp; simpl; [assumption|].
  unfold Store.present. rewrite existsb_app. simpl. unfold Store.same_url at 2.
  rewrite String.eqb_refl. apply orb_true_iff. right. reflexivity.
Qed.

(** The statement run again on a URL that is present changes nothing. *)
Lemma insert_again (t : Store.table row) (r : row) :
  Store.present key (key r) t = true -> Store.insert_or_ignore key t r = (t, 0).
Proof.
  unfold Store.insert_or_ignore. intros ->. reflexivity.
Qed.

Lemma insert_fresh (t : Store.table row) (r : row) :
  Store.present key (key r) t = false -> Store.insert_or_ignore key t r = ((t ++ [r])%list, 1).
Proof.
  unfold Store.insert_or_ignore. intros ->. reflexivity.
Qed.

Lemma update_unique (u : string) (set : row -> row) (t : Store.table row) :
  (forall r, key (set r) = key r) ->
  Store.unique key t -> Store.unique key (fst (Store.update_where key u set t)).
Proof.
  intros Hset. unfold Store.unique. simpl. rewrite map_map.
  assert (map (fun r => key (if Store.same_url key u r then set r else r)) t = map key t) as ->.
  { apply map_ext. intros r. destruct (Store.same_url key u r); [apply Hset | reflexivity]. }
  tauto.
Qed.

Lemma delete_spec (cond : row -> bool) (t : Store.table row) (r : row) :
  In r (fst (Store.delete_where cond t)) <-> In r t /\ cond r = false.
Proof.
  simpl. rewrite filter_In, negb_true_iff. tauto.
Qed.

End TableFacts.

(** ** Uniqueness by URL *)

(** A second sighting by the Go variant: the table is left as it is. *)
Lemma go_insert_known (db : Go.DB) (l : Go.Listing) :
  Store.present Go.ListingURL (Go.ListingURL l) db = true ->
  Go.insertListing db None l = (db, None).
Proof.
  intros H. unfold Go.insertListing. rewrite (insert_again _ _ _ H). reflexivity.
Qed.

(** A second sighting by the JavaScript variant: [this.changes] is 0, the
    callback does nothing and the table is left as it is. *)
Lemma js_insert_known (w : Js.World) (i : nat) (db : Js.DB) (l : Js.listing) :
  Js.insert_error w i = None ->
  Store.present Js.url_of (Js.listing_url l) db = true ->
  Js.insertListing w i db l = (db, [Js.RunInsert l]).
Proof.
  intros He H. unfold Js.insertListing. rewrite He.
  rewrite (insert_again Js.url_of db {| Js.fields := l; Js.notified := false |} H).
  reflexivity.
Qed.

(** The UNIQUE constraint is an invariant of both programs: it holds of
    the table after every pass when it held before. *)
Lemma go_range_unique (w : Go.World) (listings : list Go.Listing) :
  forall (i : nat) (db : Go.DB),
    Store.unique Go.ListingURL db ->
    Store.unique Go.ListingURL (fst (Go.range w i db listings)).
Proof.
  induction listings as [|l rest IH]; intros i db Hu; simpl; [assumption|].
  assert (Store.unique Go.ListingURL (fst (Go.range_body w i db l))) as Hb.
  { unfold Go.range_body, Go.insertListing.
    destruct (Go.insert_error w i); simpl; [assumption | apply insert_unique; assumption]. }
  destruct (Go.range_body w i db l) as [db1 tr1].
  specialize (IH (S i) db1 Hb).
  destruct (Go.range w (S i) db1 rest) as [db2 tr2]. exact IH.
Qed.

Lemma go_tick_unique (db : Go.DB) (w : Go.World) :
  Store.unique Go.ListingURL db ->
  Store.unique Go.ListingURL (fst (fst (Go.tick db w))).
Proof.
  intros Hu. unfold Go.tick.
  destruct (Go.scrapeListings w) as [ls|err|]; [|assumption|assumption].
  pose proof (go_range_unique w ls 0 db Hu) as Hr.
  destruct (Go.range w 0 db ls) as [db1 tr1].
  unfold Go.deleteOldListings.
  destruct (Go.delete_error w); cbn [fst snd] in *; [assumption|].
  apply (delete_unique Go.ListingURL
           (Go.older_than_an_hour (Go.local_offset w) (Go.sql_now w)) db1 Hr).
Qed.

Lemma go_loop_unique (ticks : list Go.World) :
  forall (db : Go.DB),
    Store.unique Go.ListingURL db ->
    Store.unique Go.ListingURL (fst (fst (Go.loop db ticks))).
Proof.
  induction ticks as [|w later IH]; intros db Hu; simpl; [assumption|].
  pose proof (go_tick_unique db w Hu) as Ht.
  destruct (Go.tick db w) as [[db1 tr1] st]. simpl in Ht.
  destruct st; [|assumption].
  specialize (IH db1 Ht).
  destruct (Go.loop db1 later) as [[db2 tr2] st2]. exact IH.
Qed.

Lemma js_insertListing_unique (w : Js.World) (i : nat) (db : Js.DB) (l : Js.listing) :
  Store.unique Js.url_of db ->
  Store.unique Js.url_of (fst (Js.insertListing w i db l)).
Proof.
  intros Hu. unfold Js.insertListing.
  destruct (Js.insert_error w i); [assumption|].
  pose proof (insert_unique Js.url_of db {| Js.fields := l; Js.notified := false |} Hu) as Hi.
  destruct (Store.insert_or_ignore Js.url_of db _) as [db1 changes]. simpl in Hi.
  destruct (0 <? changes)%nat; [|assumption].
  destruct (Js.price_condition (Js.price l)); [|assumption].
  unfold Js.markAsNotified.
  destruct (Js.update_error w i); simpl; [assumption|].
  apply (update_unique Js.url_of (Js.listing_url l) Js.set_notified db1); [reflexivity | assumption].
Qed.

(** ** C2: the same URL inserted twice *)

Lemma present_app {row : Type} (key : row -> string) (u : string) (a b : Store.table row) :
  Store.present key u (a ++ b) = Store.present key u a || Store.present key u b.
Proof. unfold Store.present. apply existsb_app. Qed.

(** Two rows of a table with the same URL are one row. *)
Lemma update_absent (u : string) (db : Js.DB) :
  Store.present Js.url_of u db = false ->
  map (fun r => if Store.same_url Js.url_of u r then Js.set_notified r else r) db = db.
Proof.
  unfold Store.present. induction db as [|r db IH]; simpl; [reflexivity|].
  intros H. apply orb_false_iff in H. destruct H as [Hr Hdb].
  rewrite Hr, (IH Hdb). reflexivity.
Qed.

(** A first sighting by the Go variant: the row is appended. *)
Lemma go_insert_new (db : Go.DB) (l : Go.Listing) :
  Store.present Go.ListingURL (Go.ListingURL l) db = false ->
  Go.insertListing db None l = (db ++ [l], None).
Proof.
  intros H. unfold Go.insertListing. rewrite (insert_fresh _ _ _ H). reflexivity.
Qed.

(** A first sighting by the JavaScript variant: the row is appended, and
    it is marked as notified when the price was worth a notification and
    the UPDATE succeeded. *)
Lemma js_insert_new (w : Js.World) (i : nat) (db : Js.DB) (l : Js.listing) :
  Js.insert_error w i = None ->
  Store.present Js.url_of (Js.listing_url l) db = false ->
  fst (Js.insertListing w i db l) =
  db ++ [{| Js.fields := l;
            Js.notified := match Js.update_error w i with
                           | None => Js.price_condition (Js.price l)
                           | Some _ => false
                           end |}].
Proof.
  intros He Hp. unfold Js.insertListing. rewrite He.
  rewrite (insert_fresh Js.url_of db {| Js.fields := l; Js.notified := false |} Hp).
  cbv beta iota zeta. change (0 <? 1)%nat with true. cbv iota.
  destruct (Js.price_condition (Js.price l)) eqn:Hc.
  - unfold Js.markAsNotified. destruct (Js.update_error w i) as [err|]; [reflexivity|].
    cbn [fst snd Store.update_where].
    rewrite map_app, (update_absent _ _ Hp). cbn [map].
    unfold Store.same_url, Js.url_of. cbn [Js.fields].
    rewrite String.eqb_refl. reflexivity.
  - destruct (Js.update_error w i); reflexivity.
Qed.

(** C2 (fails in craigslist_bot.go).  The same URL is inserted twice into
    a table that satisfies its UNIQUE constraint, no statement failing.

    craigslist_bot.go: after both calls the table holds one row for the
    URL; the second call leaves the table as the first left it; when the
    URL was new the first call appended its record and that is the row
    found afterwards, and when it was known the first call changed
    nothing either.  But insertListing returns err alone, and it is nil
    both times: the second call reports nothing that tells it from the
    first, although the statement changed no row.

    main.js: the same for the table; the row of a new URL carries the
    first record, marked as notified when its price was worth a
    notification and the UPDATE succeeded; and the second call sees
    this.changes = 0 and does nothing but run the INSERT. *)
Theorem C2_go_insert_reports_no_creation :
  forall (db : Go.DB) (first second : Go.Listing)
         (w : Js.World) (i j : nat) (jdb : Js.DB) (jfirst jsecond : Js.listing),
    Store.unique Go.ListingURL db ->
    Go.ListingURL second = Go.ListingURL first ->
    Store.unique Js.url_of jdb ->
    Js.listing_url jsecond = Js.listing_url jfirst ->
    Js.insert_error w i = None ->
    Js.insert_error w j = None ->
    let db1 := fst (Go.insertListing db None first) in
    let db2 := fst (Go.insertListing db1 None second) in
    let jdb1 := fst (Js.insertListing w i jdb jfirst) in
    let jdb2 := fst (Js.insertListing w j jdb1 jsecond) in
    (Store.rows_with Go.ListingURL (Go.ListingURL first) db2 = 1 /\
     db2 = db1 /\
     (Store.present Go.ListingURL (Go.ListingURL first) db = false ->
      db1 = db ++ [first] /\
      Store.lookup Go.ListingURL (Go.ListingURL first) db2 = Some first) /\
     (Store.present Go.ListingURL (Go.ListingURL first) db = true -> db1 = db) /\
     snd (Store.insert_or_ignore Go.ListingURL db1 second) = 0 /\
     snd (Go.insertListing db None first) = None /\
     snd (Go.insertListing db1 None second) = None) /\
    (Store.rows_with Js.url_of (Js.listing_url jfirst) jdb2 = 1 /\
     Js.insertListing w j jdb1 jsecond = (jdb1, [Js.RunInsert jsecond]) /\
     (Store.present Js.url_of (Js.listing_url jfirst) jdb = false ->
      let stored := {| Js.fields := jfirst;
                       Js.notified := match Js.update_error w i with
                                      | None => Js.price_condition (Js.price jfirst)
                                      | Some _ => false
                                      end |} in
      jdb1 = jdb ++ [stored] /\
      Store.lookup Js.url_of (Js.listing_url jfirst) jdb2 = Some stored) /\
     (Store.present Js.url_of (Js.listing_url jfirst) jdb = true -> jdb1 = jdb)).
Proof.
  intros db first second w i j jdb jfirst jsecond Hu Hurl Hju Hjurl Hi Hj.
  cbv zeta. split.
  - assert (Store.present Go.ListingURL (Go.ListingURL second)
                          (fst (Go.insertListing db None first)) = true) as Hp1.
    { rewrite Hurl. unfold Go.insertListing. cbn [fst]. apply insert_present. }
    rewrite (go_insert_known _ second Hp1). cbn [fst snd].
    rewrite (insert_again Go.ListingURL _ second Hp1). cbn [snd].
    split; [unfold Go.insertListing; cbn [fst];
            apply (insert_rows_with Go.ListingURL db first Hu)|].
    split; [reflexivity|].
    split; [intros Hp; rewrite (go_insert_new db first Hp); cbn [fst];
            split; [reflexivity | apply lookup_app_absent; [exact Hp | reflexivity]]|].
    split; [intros Hp; rewrite (go_insert_known db first Hp); reflexivity|].
    split; [reflexivity|]. split; reflexivity.
  - assert (Store.present Js.url_of (Js.listing_url jsecond)
                          (fst (Js.insertListing w i jdb jfirst)) = true) as Hp1.
    { rewrite Hjurl.
      destruct (Store.present Js.url_of (Js.listing_url jfirst) jdb) eqn:Hp.
      - rewrite (js_insert_known w i jdb jfirst Hi Hp). exact Hp.
      - rewrite (js_insert_new w i jdb jfirst Hi Hp).
        rewrite present_app. apply orb_true_iff. right.
        unfold Store.present, Store.same_url, Js.url_of. cbn [existsb Js.fields].
        rewrite String.eqb_refl. reflexivity. }
    rewrite (js_insert_known w j _ jsecond Hj Hp1). cbn [fst].
    split.
    { apply unique_rows_with; [apply js_insertListing_unique; exact Hju|].
      rewrite <- Hjurl. exact Hp1. }
    split; [reflexivity|].
    split.
    { intros Hp. cbv zeta. rewrite (js_insert_new w i jdb jfirst Hi Hp).
      split; [reflexivity|]. apply lookup_app_absent; [exact Hp | reflexivity]. }
    intros Hp. rewrite (js_insert_known w i jdb jfirst Hi Hp). reflexivity.
Qed.

Lemma C2_go_insert_reports_no_creation_witness :
  let db : Go.DB := [] in
  let first := Fixture.couch 0 in
  let second := {| Go.Title := "Sofa"; Go.Price := "$5"; Go.City := "Concord";
                   Go.Posted := 60; Go.ListingURL := "/couch" |} in
  let w := Fixture.calm_js (Fixture.body []) in
  let i := 0 in
  let j := 1 in
  let jdb : Js.DB := [] in
  let jfirst := {| Js.title := "Couch"; Js.price := "Free"; Js.city := "Charlotte";
                   Js.posted := "5m ago"; Js.listing_url := "/couch" |} in
  let jsecond := {| Js.title := "Sofa"; Js.price := "$5"; Js.city := "Concord";
                    Js.posted := "6m ago"; Js.listing_url := "/couch" |} in
  Store.unique Go.ListingURL db /\
  Go.ListingURL second = Go.ListingURL first /\
  Store.unique Js.url_of jdb /\
  Js.listing_url jsecond = Js.listing_url jfirst /\
  Js.insert_error w i = None /\
  Js.insert_error w j = None /\
  Go.insertListing db None first = ([first], None) /\
  Go.insertListing [first] None second = ([first], None) /\
  (
  let db1 := fst (Go.insertListing db None first) in
  let db2 := fst (Go.insertListing db1 None second) in
  let jdb1 := fst (Js.insertListing w i jdb jfirst) in
  let jdb2 := fst (Js.insertListing w j jdb1 jsecond) in
  (Store.rows_with Go.ListingURL (Go.ListingURL first) db2 = 1 /\
   db2 = db1 /\
   (Store.present Go.ListingURL (Go.ListingURL first) db = false ->
    db1 = db ++ [first] /\
    Store.lookup Go.ListingURL (Go.ListingURL first) db2 = Some first) /\
   (Store.present Go.ListingURL (Go.ListingURL first) db = true -> db1 = db) /\
   snd (Store.insert_or_ignore Go.ListingURL db1 second) = 0 /\
   snd (Go.insertListing db None first) = None /\
   snd (Go.insertListing db1 None second) = None) /\
  (Store.rows_with Js.url_of (Js.listing_url jfirst) jdb2 = 1 /\
   Js.insertListing w j jdb1 jsecond = (jdb1, [Js.RunInsert jsecond]) /\
   (Store.present Js.url_of (Js.listing_url jfirst) jdb = false ->
    let stored := {| Js.fields := jfirst;
                     Js.notified := match Js.update_error w i with
                                    | None => Js.price_condition (Js.price jfirst)
                                    | Some _ => false
                                    end |} in
    jdb1 = jdb ++ [stored] /\
    Store.lookup Js.url_of (Js.listing_url jfirst) jdb2 = Some stored) /\
   (Store.present Js.url_of (Js.listing_url jfirst) jdb = true -> jdb1 = jdb))).
Proof.
  cbv zeta.
  split; [apply NoDup_nil|]. split; [reflexivity|].
  split; [apply NoDup_nil|]. split; [reflexivity|].
  split; [reflexivity|]. split; [reflexivity|].
  split; [reflexivity|]. split; [reflexivity|].
  exact (C2_go_insert_reports_no_creation
           [] (Fixture.couch 0)
           {| Go.Title := "Sofa"; Go.Price := "$5"; Go.City := "Concord";
              Go.Posted := 60; Go.ListingURL := "/couch" |}
           (Fixture.calm_js (Fixture.body [])) 0 1 []
           {| Js.title := "Couch"; Js.price := "Free"; Js.city := "Charlotte";
              Js.posted := "5m ago"; Js.listing_url := "/couch" |}
           {| Js.title := "Sofa"; Js.price := "$5"; Js.city := "Concord";
              Js.posted := "6m ago"; Js.listing_url := "/couch" |}
           (NoDup_nil _) eq_refl (NoDup_nil _) eq_refl eq_refl eq_refl).
Defined.

(** ** Text *)

Lemma split_from_nonempty (sep : string) (s : string) :
  forall skip, 1 <= List.length (Text.split_from sep skip s).
Proof.
  induction s as [|c s IH]; intros skip; cbn [Text.split_from]; [simpl; lia|].
  destruct skip as [|k]; [|apply IH].
  destruct (String.prefix sep (String c s)); [cbn [List.length]; lia|].
  specialize (IH 0).
  destruct (Text.split_from sep 0 s); cbn [List.length] in *; lia.
Qed.

(** Split never returns an empty slice: index 0 always exists. *)
Lemma Split_first (s sep : string) :
  exists piece, nth_error (Text.Split s sep) 0 = Some piece.
Proof.
  unfold Text.Split. pose proof (split_from_nonempty sep s 0) as H.
  destruct (Text.split_from sep 0 s) as [|p ps]; simpl in *; [lia|].
  exists p. reflexivity.
Qed.

Lemma append_assoc (a b c : string) : ((a ++ b) ++ c = a ++ (b ++ c))%string.
Proof. induction a as [|x a IH]; simpl; [reflexivity | rewrite IH; reflexivity]. Qed.

Lemma append_empty_r (a : string) : (a ++ "")%string = a.
Proof. induction a as [|x a IH]; simpl; [reflexivity | rewrite IH; reflexivity]. Qed.

(** ** Extraction, Go variant *)

(** The callback returns early exactly when the first anchor below the
    element is missing or has no href. *)
Lemma go_callback_returned (now : Z) (s : Dom.node) :
  Go.each_result now s = Go.Returned <->
  Dom.SelectionAttr "href" (Dom.Find Dom.sel_anchor s) = None.
Proof.
  unfold Go.each_result.
  destruct (Dom.SelectionAttr "href" (Dom.Find Dom.sel_anchor s)) as [link|].
  - destruct (nth_error _ 1); split; discriminate.
  - tauto.
Qed.

(** The callback panics exactly when the link is there and the trimmed
    metadata text splits into fewer than two pieces. *)
Lemma go_callback_panics (now : Z) (s : Dom.node) :
  Go.each_result now s = Go.IndexOutOfRange <->
  Dom.SelectionAttr "href" (Dom.Find Dom.sel_anchor s) <> None /\
  List.length (Text.Split (Text.TrimSpace (Dom.SelectionText (Dom.Find Dom.sel_meta s)))
                          Go.separator) < 2.
Proof.
  unfold Go.each_result.
  destruct (Dom.SelectionAttr "href" (Dom.Find Dom.sel_anchor s)) as [link|].
  - destruct (nth_error _ 1) as [city|] eqn:E.
    + split; [discriminate|]. intros [_ H].
      assert (nth_error (Text.Split (Text.TrimSpace (Dom.SelectionText (Dom.Find Dom.sel_meta s)))
                                    Go.separator) 1 = None) as E'
        by (apply nth_error_None; lia).
      congruence.
    + apply nth_error_None in E. split; [|reflexivity].
      intros _. split; [discriminate | lia].
  - split; [discriminate|]. intros [H _]. congruence.
Qed.

(** A listing that the callback appends carries the href of the element
    as its URL and the clock reading as its Posted. *)
Lemma go_callback_appended (now : Z) (s : Dom.node) (l : Go.Listing) :
  Go.each_result now s = Go.Appended l ->
  Dom.SelectionAttr "href" (Dom.Find Dom.sel_anchor s) = Some (Go.ListingURL l) /\
  Go.Posted l = now.
Proof.
  unfold Go.each_result.
  destruct (Dom.SelectionAttr "href" (Dom.Find Dom.sel_anchor s)) as [link|]; [|discriminate].
  destruct (nth_error _ 1); [|discriminate].
  intros H. inversion H; subst; simpl. split; reflexivity.
Qed.

(** Every listing that Each adds to the slice was appended by the
    callback for one of the elements. *)
Lemma go_Each_sound (clock : nat -> Z) (sel : list Dom.node) :
  forall (i : nat) (acc out : list Go.Listing),
    Go.Each clock i sel acc = Some out ->
    exists new,
      out = acc ++ new /\
      Forall (fun l => exists j s, nth_error sel j = Some s /\
                                   Go.each_result (clock (i + j)) s = Go.Appended l) new.
Proof.
  induction sel as [|s sel IH]; intros i acc out H; simpl in H.
  - inversion H; subst. exists []. split; [symmetry; apply app_nil_r | constructor].
  - destruct (Go.each_result (clock i) s) as [|l|] eqn:E; [| |discriminate].
    + destruct (IH _ _ _ H) as [new [Hout Hall]].
      exists new. split; [assumption|].
      eapply Forall_impl; [|exact Hall].
      intros l [j [s' [Hn Hc]]]. exists (S j), s'. simpl.
      replace (i + S j) with (S i + j) by lia. tauto.
    + destruct (IH _ _ _ H) as [new [Hout Hall]].
      exists (l :: new). split; [rewrite Hout, <- app_assoc; reflexivity|].
      constructor.
      * exists 0, s. simpl. replace (i + 0) with i by lia. tauto.
      * eapply Forall_impl; [|exact Hall].
        intros l' [j [s' [Hn Hc]]]. exists (S j), s'. simpl.
        replace (i + S j) with (S i + j) by lia. tauto.
Qed.

(** No listing without the href of its element leaves the Go extractor:
    each one comes from a matched element whose first anchor has an href,
    and that href is its URL. *)
Lemma go_extract_only_linked (clock : nat -> Z) (doc : Dom.node) (out : list Go.Listing) :
  Go.extract clock doc = Some out ->
  Forall (fun l => exists s, In s (Dom.Find Dom.sel_result doc) /\
                             Dom.SelectionAttr "href" (Dom.Find Dom.sel_anchor s)
                             = Some (Go.ListingURL l)) out.
Proof.
  intros H. destruct (go_Each_sound _ _ _ _ _ H) as [new [Hout Hall]].
  simpl in Hout. subst out.
  eapply Forall_impl; [|exact Hall].
  intros l [j [s [Hn Hc]]]. exists s. split.
  - eapply nth_error_In; eassumption.
  - apply (go_callback_appended _ _ _ Hc).
Qed.

Lemma prefix_iff (p s : string) :
  String.prefix p s = true <-> exists rest, s = (p ++ rest)%string.
Proof.
  revert s. induction p as [|a p IH]; intros s.
  - destruct s; simpl; (split; [intros _; eexists; reflexivity | reflexivity]).
  - destruct s as [|b s]; simpl.
    + split; [discriminate | intros [rest H]; discriminate].
    + destruct (ascii_dec a b) as [->|Hne].
      * rewrite IH. split; intros [rest H]; exists rest.
        -- rewrite H. reflexivity.
        -- inversion H. reflexivity.
      * split; [discriminate|]. intros [rest H]. inversion H. congruence.
Qed.

(** Split yields at least two pieces exactly when the separator occurs. *)
Lemma Split_two_pieces (s sep : string) :
  sep <> ""%string ->
  (2 <= List.length (Text.Split s sep) <-> Text.occurs_in sep s).
Proof.
  intros Hsep. unfold Text.Split, Text.occurs_in.
  induction s as [|c s IH]; cbn [Text.split_from].
  - split.
    + simpl. lia.
    + intros [a [b H]]. destruct a; [destruct sep; [contradiction | discriminate] | discriminate].
  - destruct (String.prefix sep (String c s)) eqn:Hp.
    + split.
      * intros _. apply prefix_iff in Hp. destruct Hp as [rest H].
        exists ""%string, rest. exact H.
      * intros _. cbn [List.length].
        pose proof (split_from_nonempty sep s (String.length sep - 1)). lia.
    + assert (List.length
                match Text.split_from sep 0 s with
                | [] => [String c ""]
                | piece :: rest => String c piece :: rest
                end = List.length (Text.split_from sep 0 s)) as Hlen.
      { pose proof (split_from_nonempty sep s 0).
        destruct (Text.split_from sep 0 s); simpl in *; [lia | reflexivity]. }
      rewrite Hlen, IH. split.
      * intros [a [b H]]. exists (String c a), b. rewrite H. reflexivity.
      * intros [a [b H]]. destruct a as [|x a].
        -- simpl in H. assert (String.prefix sep (String c s) = true) as Hp'
             by (apply prefix_iff; exists b; exact H).
           congruence.
        -- inversion H. exists a, b. reflexivity.
Qed.

(** The Go callback panics exactly when the element has its link and the
    separator does not occur in its trimmed metadata text. *)
Lemma go_callback_panics_without_separator (now : Z) (s : Dom.node) :
  Go.each_result now s = Go.IndexOutOfRange <->
  Dom.SelectionAttr "href" (Dom.Find Dom.sel_anchor s) <> None /\
  ~ Text.occurs_in Go.separator
      (Text.TrimSpace (Dom.SelectionText (Dom.Find Dom.sel_meta s))).
Proof.
  rewrite go_callback_panics.
  rewrite <- (Split_two_pieces _ Go.separator) by discriminate.
  split; intros [H1 H2]; (split; [assumption | lia]).
Qed.

(** ** Extraction, JavaScript variant *)

(** The forEach callback pushes one item per matched element: nothing is
    skipped and nothing throws. *)
Lemma js_evaluate_length (document : Dom.node) :
  List.length (Js.evaluate document) = List.length (Dom.Find Dom.sel_result document).
Proof. unfold Js.evaluate. apply length_map. Qed.

(** An element without an anchor is pushed with an empty listing_url. *)
Lemma js_item_without_anchor (item : Dom.node) :
  Dom.querySelector Dom.sel_anchor item = None ->
  Js.listing_url (Js.item_of item) = ""%string.
Proof. intros H. unfold Js.item_of. rewrite H. reflexivity. Qed.

(** ** C3: elements without a link *)

(** C3 (fails in main.js).  The page holds one entry and it has no anchor.
    main.js extracts a record for it, with listing_url "", and
    processListings hands that record to the INSERT; craigslist_bot.go on
    the same page returns no listing. *)
Theorem C3_js_keeps_element_without_link :
  let doc := Fixture.body [Fixture.linkless_item] in
  let lamp := {| Js.title := "Lamp"; Js.price := "";
                 Js.city := "Unknown City";
                 Js.posted := ("1h ago" ++ Go.separator ++ "Concord")%string;
                 Js.listing_url := "" |} in
  Dom.querySelector Dom.sel_anchor Fixture.linkless_item = None /\
  Js.evaluate doc = [lamp] /\
  (exists db tr,
      Js.processListings (Fixture.calm_js doc) [] = inr (db, tr) /\
      In (Js.RunInsert lamp) tr /\
      Store.lookup Js.url_of "" db = Some {| Js.fields := lamp; Js.notified := true |}) /\
  (forall clock, Go.extract clock doc = Some []).
Proof.
  cbv zeta. split; [reflexivity|]. split; [reflexivity|]. split.
  - eexists. eexists. split; [vm_compute; reflexivity|].
    split; [left; reflexivity | reflexivity].
  - intros clock. reflexivity.
Qed.

(** ** C4: metadata without the separator *)

(** C4 (fails in craigslist_bot.go).  The page holds one entry with a link
    whose metadata text "just now" has no separator: Split returns one
    piece, the index expression [1] is out of range, the callback panics
    and the process is gone.  main.js on the same page returns a record
    with city "Unknown City". *)
Theorem C4_go_panics_without_separator :
  let doc := Fixture.body [Fixture.bare_meta_item] in
  Text.Split "just now" Go.separator = ["just now"%string] /\
  (forall clock, Go.extract clock doc = None) /\
  (forall db, Go.tick db (Fixture.calm doc 0) = (db, [], Go.Crashed)) /\
  (forall db later, Go.loop db (Fixture.calm doc 0 :: later) = (db, [], Go.Crashed)) /\
  Js.evaluate doc = [{| Js.title := "Desk"; Js.price := "$20";
                        Js.city := "Unknown City"; Js.posted := "just now";
                        Js.listing_url := "/desk" |}].
Proof.
  cbv zeta. split; [reflexivity|]. split; [intros; reflexivity|].
  split; [intros; reflexivity|]. split; [intros; reflexivity | reflexivity].
Qed.

(** ** C5: repeated extraction *)

Lemma go_callback_undated (now1 now2 : Z) (s : Dom.node) :
  match Go.each_result now1 s, Go.each_result now2 s with
  | Go.Returned, Go.Returned => True
  | Go.IndexOutOfRange, Go.IndexOutOfRange => True
  | Go.Appended l1, Go.Appended l2 => Spec.undated l1 = Spec.undated l2
  | _, _ => False
  end.
Proof.
  unfold Go.each_result.
  destruct (Dom.SelectionAttr "href" (Dom.Find Dom.sel_anchor s)); [|exact I].
  destruct (nth_error _ 1); [reflexivity | exact I].
Qed.

Lemma go_Each_undated (clock1 clock2 : nat -> Z) (sel : list Dom.node) :
  forall (i : nat) (acc1 acc2 : list Go.Listing),
    map Spec.undated acc1 = map Spec.undated acc2 ->
    option_map (map Spec.undated) (Go.Each clock1 i sel acc1) =
    option_map (map Spec.undated) (Go.Each clock2 i sel acc2).
Proof.
  induction sel as [|s sel IH]; intros i acc1 acc2 Hacc; simpl.
  - rewrite Hacc. reflexivity.
  - pose proof (go_callback_undated (clock1 i) (clock2 i) s) as H.
    destruct (Go.each_result (clock1 i) s) as [|l1|],
             (Go.each_result (clock2 i) s) as [|l2|]; try contradiction.
    + apply IH. assumption.
    + apply IH. rewrite !map_app. simpl. rewrite Hacc, H. reflexivity.
    + reflexivity.
Qed.

(** C5 as stated fails in craigslist_bot.go: the same page extracted
    under two clock readings gives two sequences whose records differ in
    Posted. *)
Lemma C5_go_posted_differs :
  Go.extract (fun _ => 0%Z) (Fixture.body [Fixture.couch_item]) = Some [Fixture.couch 0] /\
  Go.extract (fun _ => 60%Z) (Fixture.body [Fixture.couch_item]) = Some [Fixture.couch 60] /\
  Some [Fixture.couch 0] <> Some [Fixture.couch 60].
Proof. split; [reflexivity|]. split; [reflexivity | discriminate]. Qed.

(** The Posted of every extracted record is a reading of the clock. *)
Lemma go_extract_posted_is_clock (clock : nat -> Z) (doc : Dom.node) (out : list Go.Listing) :
  Go.extract clock doc = Some out ->
  Forall (fun l => exists i, Go.Posted l = clock i) out.
Proof.
  intros H. destruct (go_Each_sound _ _ _ _ _ H) as [new [Hout Hall]].
  simpl in Hout. subst out.
  eapply Forall_impl; [|exact Hall].
  intros l [j [s [_ Hc]]]. exists (0 + j). apply (go_callback_appended _ _ _ Hc).
Qed.

(** C5, amended.  For every page, two runs of the Go extraction under any
    two clocks agree on whether the run panics and, when it does not, on
    the sequence of records up to Posted: same length, same order, and
    title, price, city and URL equal record by record.  The Posted of
    each record is a reading of the clock of its run. *)
Theorem C5_extraction_repeatable_up_to_posted :
  forall (doc : Dom.node) (clock1 clock2 : nat -> Z),
    option_map (map Spec.undated) (Go.extract clock1 doc) =
    option_map (map Spec.undated) (Go.extract clock2 doc) /\
    (forall out, Go.extract clock1 doc = Some out ->
                 Forall (fun l => exists i, Go.Posted l = clock1 i) out).
Proof.
  intros doc clock1 clock2. split.
  - unfold Go.extract. apply go_Each_undated. reflexivity.
  - intros out H. apply (go_extract_posted_is_clock clock1 doc out H).
Qed.

(** ** The price test *)

Lemma go_price_condition_iff (price : string) :
  Go.price_condition price = true <-> Spec.notify_worthy price.
Proof.
  unfold Go.price_condition, Spec.notify_worthy.
  rewrite !orb_true_iff, !String.eqb_eq. tauto.
Qed.

Lemma js_price_condition_iff (price : string) :
  Js.price_condition price = true <-> Spec.notify_worthy price.
Proof.
  unfold Js.price_condition, Js.truthy, Spec.notify_worthy.
  rewrite !orb_true_iff, negb_involutive, !String.eqb_eq. tauto.
Qed.

(** ** The loop over the listings, Go variant *)

(** What sendNotification leaves in the trace is a request or a line. *)
Lemma go_sendNotification_events (message : string) (o : Go.HttpOutcome) :
  forallb (fun e => negb (Spec.is_insert e || Spec.is_delete e || Spec.is_sleep e))
          (Go.sendNotification message o) = true.
Proof.
  destruct o as [err|err|code]; simpl; [reflexivity | reflexivity |].
  destruct (negb (code =? 200)%Z); reflexivity.
Qed.

(** sendNotification makes at most one request. *)
Lemma go_sendNotification_once (message : string) (o : Go.HttpOutcome) :
  filter Spec.is_request (Go.sendNotification message o) =
  match o with
  | Go.RequestError _ => []
  | _ => [Go.ClientDo (Go.NewRequest message)]
  end.
Proof.
  destruct o as [err|err|code]; simpl; [reflexivity | reflexivity |].
  destruct (negb (code =? 200)%Z); reflexivity.
Qed.

(** Neither the DELETE nor the sleep happens inside the loop over the
    listings. *)
Lemma go_range_body_events (w : Go.World) (i : nat) (db : Go.DB) (l : Go.Listing) :
  forallb (fun e => negb (Spec.is_delete e || Spec.is_sleep e))
          (snd (Go.range_body w i db l)) = true.
Proof.
  unfold Go.range_body, Go.insertListing.
  destruct (Go.insert_error w i); simpl; [reflexivity|].
  destruct (Go.price_condition (Go.Price l)); [|reflexivity].
  pose proof (go_sendNotification_events (Go.alert l) (Go.http w i)) as H.
  rewrite forallb_forall in *. intros e He. specialize (H e He).
  destruct e; simpl in *; congruence.
Qed.

Lemma go_range_events (w : Go.World) (listings : list Go.Listing) :
  forall (i : nat) (db : Go.DB),
    forallb (fun e => negb (Spec.is_delete e || Spec.is_sleep e))
            (snd (Go.range w i db listings)) = true.
Proof.
  induction listings as [|l rest IH]; intros i db; simpl; [reflexivity|].
  pose proof (go_range_body_events w i db l) as Hb.
  destruct (Go.range_body w i db l) as [db1 tr1].
  specialize (IH (S i) db1).
  destruct (Go.range w (S i) db1 rest) as [db2 tr2].
  simpl in *. rewrite forallb_app, Hb, IH. reflexivity.
Qed.

(** The loop over a slice in two parts. *)
Lemma go_range_app (w : Go.World) (before after : list Go.Listing) :
  forall (i : nat) (db : Go.DB),
    Go.range w i db (before ++ after) =
    let '(db1, tr1) := Go.range w i db before in
    let '(db2, tr2) := Go.range w (i + List.length before) db1 after in
    (db2, tr1 ++ tr2).
Proof.
  induction before as [|l rest IH]; intros i db; simpl.
  - replace (i + 0) with i by lia.
    destruct (Go.range w i db after). reflexivity.
  - destruct (Go.range_body w i db l) as [db1 tr1].
    rewrite IH. destruct (Go.range w (S i) db1 rest) as [db2 tr2].
    replace (i + S (List.length rest)) with (S i + List.length rest) by lia.
    destruct (Go.range w (S i + List.length rest) db2 after) as [db3 tr3].
    rewrite app_assoc. reflexivity.
Qed.

(** Every listing of the slice is offered to the INSERT. *)
Lemma go_range_inserts_all (w : Go.World) (listings : list Go.Listing) :
  forall (i : nat) (db : Go.DB) (l : Go.Listing),
    In l listings -> In (Go.ExecInsert l) (snd (Go.range w i db listings)).
Proof.
  induction listings as [|x rest IH]; intros i db l Hin; simpl; [contradiction|].
  destruct (Go.range_body w i db x) as [db1 tr1] eqn:Eb.
  specialize (IH (S i) db1 l).
  destruct (Go.range w (S i) db1 rest) as [db2 tr2]. simpl in *.
  apply in_or_app. destruct Hin as [->|Hin]; [left | right; auto].
  unfold Go.range_body in Eb.
  destruct (Go.insertListing db (Go.insert_error w i) l) as [d [e|]];
    inversion Eb; subst; left; reflexivity.
Qed.

(** The table the loop leaves does not depend on how the requests are
    answered. *)
Lemma go_range_db_ignores_http (w : Go.World) (answers : nat -> Go.HttpOutcome)
      (listings : list Go.Listing) :
  forall (i : nat) (db : Go.DB),
    fst (Go.range (Spec.with_http w answers) i db listings) = fst (Go.range w i db listings).
Proof.
  induction listings as [|l rest IH]; intros i db; simpl; [reflexivity|].
  unfold Go.range_body. simpl.
  destruct (Go.insertListing db (Go.insert_error w i) l) as [db1 [e|]].
  - specialize (IH (S i) db1).
    destruct (Go.range (Spec.with_http w answers) (S i) db1 rest),
             (Go.range w (S i) db1 rest). simpl in *. assumption.
  - specialize (IH (S i) db1).
    destruct (Go.range (Spec.with_http w answers) (S i) db1 rest),
             (Go.range w (S i) db1 rest). simpl in *. assumption.
Qed.

(** When the INSERT returns no error and the price passes the test, the
    Go loop sends the notification, whatever the table held before. *)
Lemma go_notifies_on_price_alone (w : Go.World) (i : nat) (db : Go.DB) (l : Go.Listing) :
  Go.insert_error w i = None ->
  Go.price_condition (Go.Price l) = true ->
  snd (Go.range_body w i db l) =
  Go.ExecInsert l :: Go.sendNotification (Go.alert l) (Go.http w i).
Proof.
  intros He Hp. unfold Go.range_body, Go.insertListing. rewrite He, Hp. reflexivity.
Qed.

(** main.js makes the request exactly when the INSERT succeeded, created
    the row, and the price is worth a notification. *)
Lemma js_notifies_iff_created_and_worthy (w : Js.World) (i : nat) (db : Js.DB) (l : Js.listing) :
  existsb Spec.is_fetch (snd (Js.insertListing w i db l)) = true <->
  Js.insert_error w i = None /\
  snd (Store.insert_or_ignore Js.url_of db {| Js.fields := l; Js.notified := false |}) = 1 /\
  Spec.notify_worthy (Js.price l).
Proof.
  rewrite <- js_price_condition_iff.
  unfold Js.insertListing, Store.insert_or_ignore.
  destruct (Js.insert_error w i) as [err|].
  - simpl. split; [discriminate | intros [H _]; discriminate].
  - destruct (Store.present Js.url_of _ db); simpl.
    + split; [discriminate | intros [_ [H _]]; discriminate].
    + destruct (Js.price_condition (Js.price l)).
      * destruct (Js.markAsNotified _ _ _) as [db2 tr]. simpl. tauto.
      * simpl. split; [discriminate | intros [_ [_ H]]; discriminate].
Qed.

(** ** C1: notification and creation *)

(** C1 (fails in craigslist_bot.go).  The table already holds "/couch";
    the page shows the same entry, price "Free".  The INSERT changes no
    row, yet the pass posts the notification. *)
Theorem C1_go_notifies_known_listing :
  let db := [Fixture.couch 0] in
  let w := Fixture.calm (Fixture.body [Fixture.couch_item]) 60 in
  Go.scrapeListings w = Go.Listings [Fixture.couch 60] /\
  Store.insert_or_ignore Go.ListingURL db (Fixture.couch 60) = (db, 0) /\
  Go.tick db w =
    (db,
     [Go.ExecInsert (Fixture.couch 60);
      Go.ClientDo (Go.NewRequest (Go.alert (Fixture.couch 60)));
      Go.Printed ("Notification sent: " ++ Go.alert (Fixture.couch 60))%string;
      Go.ExecDelete;
      Go.Slept 3000000000],
     Go.AwaitingTick).
Proof.
  cbv zeta. split; [reflexivity|]. split; reflexivity.
Qed.

(** ** C10: a failed insert *)

Lemma go_range_body_failed (w : Go.World) (i : nat) (db : Go.DB) (l : Go.Listing) (err : string) :
  Go.insert_error w i = Some err ->
  Go.range_body w i db l =
  (db, [Go.ExecInsert l; Go.Printed ("Failed to insert listing: " ++ err)%string]).
Proof.
  intros He. unfold Go.range_body, Go.insertListing. rewrite He. reflexivity.
Qed.

(** C10.  When the INSERT for the listing at some position of the slice
    returns an error, that turn of the loop consists of the attempted
    INSERT and the printed line, with no request and the table untouched;
    the listings before it and after it are processed as usual, the
    later ones from the table the earlier ones left. *)
Theorem C10_failed_insert_is_logged_and_skipped :
  forall (w : Go.World) (db : Go.DB) (before after : list Go.Listing)
         (l : Go.Listing) (err : string),
    Go.insert_error w (List.length before) = Some err ->
    Go.range w 0 db (before ++ l :: after) =
    (let '(db1, tr1) := Go.range w 0 db before in
     let '(db2, tr2) := Go.range w (S (List.length before)) db1 after in
     (db2,
      tr1 ++ [Go.ExecInsert l; Go.Printed ("Failed to insert listing: " ++ err)%string] ++ tr2)).
Proof.
  intros w db before after l err He.
  rewrite go_range_app. simpl.
  destruct (Go.range w 0 db before) as [db1 tr1].
  rewrite (go_range_body_failed w _ db1 l err He).
  destruct (Go.range w (S (List.length before)) db1 after) as [db2 tr2].
  reflexivity.
Qed.

Lemma C10_failed_insert_is_logged_and_skipped_witness :
  let w := Fixture.locked_at 1 (Fixture.body []) 0 in
  Go.insert_error w (List.length [Fixture.couch 1]) = Some "database is locked"%string /\
  Go.range w 0 [] ([Fixture.couch 1] ++ Fixture.couch 2 :: [Fixture.couch 3]) =
  (let '(db1, tr1) := Go.range w 0 [] [Fixture.couch 1] in
   let '(db2, tr2) := Go.range w (S (List.length [Fixture.couch 1])) db1 [Fixture.couch 3] in
   (db2,
    tr1 ++ [Go.ExecInsert (Fixture.couch 2);
            Go.Printed ("Failed to insert listing: " ++ "database is locked")%string] ++ tr2)).
Proof.
  split; [reflexivity|].
  exact (C10_failed_insert_is_logged_and_skipped
           (Fixture.locked_at 1 (Fixture.body []) 0) []
           [Fixture.couch 1] [Fixture.couch 3] (Fixture.couch 2)
           "database is locked" eq_refl).
Defined.

(** ** C6: the delay after a pass *)

Lemma int64_small (z : Z) :
  (- 2 ^ 63 <= z < 2 ^ 63)%Z -> Go.int64 z = z.
Proof.
  intros H. unfold Go.int64. rewrite Z.mod_small; lia.
Qed.

Lemma go_delay_value (n : nat) :
  Go.delay (Z.of_nat n) = ((2 + Z.of_nat n mod 3) * Go.Second)%Z.
Proof.
  unfold Go.delay, Go.Second.
  rewrite Z.rem_mod_nonneg by lia.
  pose proof (Z.mod_pos_bound (Z.of_nat n) 3 ltac:(lia)) as Hm.
  rewrite (int64_small (2 + Z.of_nat n mod 3)) by lia.
  apply int64_small. lia.
Qed.

(** C6.  For a slice of any length the duration passed to time.Sleep is
    (2 + len mod 3) seconds, computed without overflow: at least 2 s and
    less than 5 s. *)
Theorem C6_delay_between_2_and_5_seconds :
  forall (listings : list Go.Listing),
    let d := Go.delay (Z.of_nat (List.length listings)) in
    (d = (2 + Z.of_nat (List.length listings) mod 3) * Go.Second /\
     2 * Go.Second <= d < (2 + 3) * Go.Second)%Z.
Proof.
  intros listings. cbv zeta. rewrite go_delay_value.
  pose proof (Z.mod_pos_bound (Z.of_nat (List.length listings)) 3 ltac:(lia)) as Hm.
  unfold Go.Second. split; [reflexivity | lia].
Qed.

(** ** The pass as a whole, Go variant *)

(** scrapeListings returns an error exactly when the page does not load
    or does not parse. *)
Lemma go_scrape_failed_iff (w : Go.World) (err : string) :
  Go.scrapeListings w = Go.Failed err <->
  (exists e, Go.page w = Go.LoadFailed e /\ err = ("failed to load the page: " ++ e)%string) \/
  (exists e, Go.page w = Go.ParseFailed e /\ err = ("failed to parse the page: " ++ e)%string).
Proof.
  unfold Go.scrapeListings. destruct (Go.page w) as [e|e|doc].
  - split.
    + intros H. inversion H. left. exists e. tauto.
    + intros [[e' [H1 H2]]|[e' [H1 H2]]]; inversion H1; subst; reflexivity.
  - split.
    + intros H. inversion H. right. exists e. tauto.
    + intros [[e' [H1 H2]]|[e' [H1 H2]]]; inversion H1; subst; reflexivity.
  - destruct (Go.extract (Go.clock w) doc); split; try discriminate;
      intros [[e' [H1 _]]|[e' [H1 _]]]; discriminate.
Qed.

(** The shape of a pass whose scrape returned listings. *)
Lemma go_tick_listings (db : Go.DB) (w : Go.World) (listings : list Go.Listing) :
  Go.scrapeListings w = Go.Listings listings ->
  Go.tick db w =
  (fst (Go.deleteOldListings (fst (Go.range w 0 db listings))
                             (Go.local_offset w) (Go.sql_now w) (Go.delete_error w)),
   snd (Go.range w 0 db listings) ++
   Go.ExecDelete ::
   match Go.delete_error w with
   | Some e => [Go.Printed ("Failed to delete old listings: " ++ e)%string]
   | None => []
   end ++ [Go.Slept (Go.delay (Z.of_nat (List.length listings)))],
   Go.AwaitingTick).
Proof.
  intros H. unfold Go.tick. rewrite H.
  destruct (Go.range w 0 db listings) as [db1 tr1].
  unfold Go.deleteOldListings.
  destruct (Go.delete_error w); reflexivity.
Qed.

(** The errors of a pass (INSERT, DELETE, request) do not end the
    process: it is gone after a pass only when the extraction panicked. *)
Lemma go_tick_crashed_iff (db : Go.DB) (w : Go.World) :
  snd (Go.tick db w) = Go.Crashed <-> Go.scrapeListings w = Go.Panicked.
Proof.
  unfold Go.tick. destruct (Go.scrapeListings w) as [ls|err|].
  - destruct (Go.range w 0 db ls) as [db1 tr1].
    destruct (Go.deleteOldListings db1 (Go.local_offset w) (Go.sql_now w) (Go.delete_error w))
      as [db2 e].
    simpl. split; discriminate.
  - simpl. split; discriminate.
  - simpl. tauto.
Qed.

(** Whenever a pass sleeps, it sleeps at least 2 s and less than 5 s. *)
Lemma go_tick_sleep_bound (db : Go.DB) (w : Go.World) (d : Z) :
  In (Go.Slept d) (snd (fst (Go.tick db w))) ->
  (2 * Go.Second <= d < 5 * Go.Second)%Z.
Proof.
  destruct (Go.scrapeListings w) as [ls|err|] eqn:E.
  - rewrite (go_tick_listings db w ls E). simpl. intros H.
    apply in_app_or in H. destruct H as [H|H].
    + pose proof (go_range_events w ls 0 db) as Hr.
      rewrite forallb_forall in Hr. specialize (Hr _ H).
      simpl in Hr. discriminate.
    + assert (d = Go.delay (Z.of_nat (List.length ls))) as ->.
      { destruct H as [H|H]; [discriminate|].
        destruct (Go.delete_error w); simpl in H;
          repeat (destruct H as [H|H]; [inversion H; reflexivity || discriminate|]);
          contradiction. }
      rewrite go_delay_value.
      pose proof (Z.mod_pos_bound (Z.of_nat (List.length ls)) 3 ltac:(lia)).
      unfold Go.Second. lia.
  - unfold Go.tick. rewrite E. simpl. intros [H|[]]. discriminate.
  - unfold Go.tick. rewrite E. simpl. contradiction.
Qed.

(** ** C7: a failed fetch *)

(** C7 as stated fails: after a failed fetch the pass goes back to waiting
    for the ticker without sleeping; the delay step is not run. *)
Lemma C7_failed_fetch_does_not_sleep :
  Go.scrapeListings Fixture.offline =
    Go.Failed "failed to load the page: context deadline exceeded" /\
  Go.tick [] Fixture.offline =
    ([],
     [Go.Printed "Failed to scrape listings: failed to load the page: context deadline exceeded"],
     Go.AwaitingTick) /\
  existsb Spec.is_sleep (snd (fst (Go.tick [] Fixture.offline))) = false.
Proof. split; [reflexivity|]. split; reflexivity. Qed.

(** C7, amended.  When scrapeListings returns an error the pass prints
    the error and goes straight back to waiting for the next tick: no
    INSERT, no request, no DELETE and no sleep happen, the table is as it
    was, and the loop carries on with the ticks that follow.  More
    generally, whatever errors the page load, the INSERTs, the DELETE and
    the requests of a pass return, the process is waiting for the next
    tick after the pass, provided the extraction did not panic. *)
Theorem C7_failed_fetch_abandons_the_pass :
  forall (db : Go.DB) (w : Go.World) (later : list Go.World),
    (forall err,
        Go.scrapeListings w = Go.Failed err ->
        Go.tick db w =
          (db, [Go.Printed ("Failed to scrape listings: " ++ err)%string], Go.AwaitingTick) /\
        Go.loop db (w :: later) =
          (let '(db', tr, st) := Go.loop db later in
           (db', Go.Printed ("Failed to scrape listings: " ++ err)%string :: tr, st))) /\
    (Go.scrapeListings w <> Go.Panicked -> snd (Go.tick db w) = Go.AwaitingTick).
Proof.
  intros db w later. split.
  - intros err H.
    assert (Go.tick db w =
            (db, [Go.Printed ("Failed to scrape listings: " ++ err)%string], Go.AwaitingTick))
      as Ht by (unfold Go.tick; rewrite H; reflexivity).
    split; [exact Ht|].
    simpl. rewrite Ht.
    destruct (Go.loop db later) as [[db' tr] st]. reflexivity.
  - intros Hnp. pose proof (go_tick_crashed_iff db w) as Hc.
    destruct (snd (Go.tick db w)); [reflexivity|].
    exfalso. apply Hnp, Hc. reflexivity.
Qed.

Lemma C7_failed_fetch_abandons_the_pass_witness :
  Go.scrapeListings Fixture.offline =
    Go.Failed "failed to load the page: context deadline exceeded" /\
  Go.scrapeListings Fixture.offline <> Go.Panicked /\
  Go.tick [Fixture.couch 0] Fixture.offline =
    ([Fixture.couch 0],
     [Go.Printed ("Failed to scrape listings: "
                  ++ "failed to load the page: context deadline exceeded")%string],
     Go.AwaitingTick) /\
  Go.loop [Fixture.couch 0] (Fixture.offline :: [Fixture.offline]) =
    (let '(db', tr, st) := Go.loop [Fixture.couch 0] [Fixture.offline] in
     (db',
      Go.Printed ("Failed to scrape listings: "
                  ++ "failed to load the page: context deadline exceeded")%string :: tr,
      st)) /\
  snd (Go.tick [Fixture.couch 0] Fixture.offline) = Go.AwaitingTick.
Proof.
  pose (C7_failed_fetch_abandons_the_pass [Fixture.couch 0] Fixture.offline [Fixture.offline])
    as thm.
  split; [reflexivity|].
  split; [discriminate|].
  split; [exact (proj1 (proj1 thm _ eq_refl))|].
  split; [exact (proj2 (proj1 thm _ eq_refl))|].
  apply (proj2 thm). discriminate.
Defined.

(** ** Dates and their texts *)

Lemma days_in_order_step (n : nat) (doe prev : Z) :
  Calendar.days_in_order (S n) doe prev =
  if Calendar.month_and_day (Calendar.era_start + doe)
     && (prev <? Calendar.ymd (Calendar.era_start + doe))%Z
  then Calendar.days_in_order n (doe + 1) (Calendar.ymd (Calendar.era_start + doe))
  else false.
Proof.
  cbn [Calendar.days_in_order]. unfold Calendar.month_and_day, Calendar.ymd.
  destruct (Sqlite.civil_from_days (Calendar.era_start + doe)) as [[y m] d]. reflexivity.
Qed.

Lemma days_in_order_spec (n : nat) (doe prev : Z) :
  Calendar.days_in_order n doe prev = true ->
  forall i, (0 <= i < Z.of_nat n)%Z ->
    Calendar.month_and_day (Calendar.era_start + (doe + i)) = true /\
    ((i + 1 < Z.of_nat n)%Z ->
     (Calendar.ymd (Calendar.era_start + (doe + i))
      < Calendar.ymd (Calendar.era_start + (doe + i + 1)))%Z).
Proof.
  revert doe prev. induction n as [|n IH]; intros doe prev H i Hi; [lia|].
  rewrite days_in_order_step in H.
  destruct (Calendar.month_and_day (Calendar.era_start + doe)) eqn:Hm; [|discriminate].
  destruct (prev <? Calendar.ymd (Calendar.era_start + doe))%Z eqn:Hp; [|discriminate].
  cbn [andb] in H.
  destruct (Z.eq_dec i 0) as [->|Hne].
  - rewrite Z.add_0_r. split; [exact Hm|]. intros Hn.
    destruct n as [|n]; [lia|]. rewrite days_in_order_step in H.
    destruct (Calendar.month_and_day (Calendar.era_start + (doe + 1))); [|discriminate].
    destruct (Calendar.ymd (Calendar.era_start + doe)
              <? Calendar.ymd (Calendar.era_start + (doe + 1)))%Z eqn:Hlt; [|discriminate].
    apply Z.ltb_lt in Hlt. exact Hlt.
  - destruct (IH (doe + 1)%Z _ H (i - 1)%Z ltac:(lia)) as [H1 H2].
    replace (doe + 1 + (i - 1))%Z with (doe + i)%Z in * by ring.
    split; [exact H1|]. intros Hn. apply H2. lia.
Qed.

(** The 146097 days of an era and the first day of the next. *)
Lemma era_in_order : Calendar.days_in_order (Z.to_nat 146098) 0 0 = true.
Proof. vm_cast_no_check (eq_refl true). Qed.

(** Four hundred years later the date is the same. *)
Lemma civil_from_days_era (days k : Z) :
  Sqlite.civil_from_days (days + 146097 * k) =
  let '(y, m, d) := Sqlite.civil_from_days days in ((y + 400 * k)%Z, m, d).
Proof.
  unfold Sqlite.civil_from_days. cbv zeta.
  replace (days + 146097 * k + 719468)%Z with (days + 719468 + k * 146097)%Z by ring.
  rewrite Z.div_add by discriminate. rewrite Z.mod_add by discriminate.
  f_equal. f_equal. ring.
Qed.

Lemma ymd_era (days k : Z) :
  Calendar.ymd (days + 146097 * k) = (Calendar.ymd days + 4000000 * k)%Z.
Proof.
  unfold Calendar.ymd. rewrite civil_from_days_era.
  destruct (Sqlite.civil_from_days days) as [[y m] d]. ring.
Qed.

Lemma month_and_day_era (days k : Z) :
  Calendar.month_and_day (days + 146097 * k) = Calendar.month_and_day days.
Proof.
  unfold Calendar.month_and_day. rewrite civil_from_days_era.
  destruct (Sqlite.civil_from_days days) as [[y m] d]. reflexivity.
Qed.

(** A day in its era. *)
Lemma day_of_era (days : Z) :
  exists doe k, (0 <= doe < 146097)%Z /\
                days = (Calendar.era_start + doe + 146097 * k)%Z.
Proof.
  exists ((days + 719468) mod 146097)%Z, ((days + 719468) / 146097)%Z.
  split; [apply Z.mod_pos_bound; reflexivity|].
  unfold Calendar.era_start.
  pose proof (Z.div_mod (days + 719468) 146097 ltac:(discriminate)). lia.
Qed.

(** Every day is a date with a month and a day of the month. *)
Lemma civil_month_and_day (days : Z) : Calendar.month_and_day days = true.
Proof.
  destruct (day_of_era days) as [doe [k [Hd ->]]].
  rewrite month_and_day_era.
  destruct (days_in_order_spec _ 0 0 era_in_order doe ltac:(lia)) as [H _].
  exact H.
Qed.

(** The next day is a later date. *)
Lemma ymd_succ (days : Z) : (Calendar.ymd days < Calendar.ymd (days + 1))%Z.
Proof.
  destruct (day_of_era days) as [doe [k [Hd ->]]].
  replace (Calendar.era_start + doe + 146097 * k + 1)%Z
    with (Calendar.era_start + (doe + 1) + 146097 * k)%Z by ring.
  rewrite !ymd_era.
  destruct (days_in_order_spec _ 0 0 era_in_order doe ltac:(lia)) as [_ H].
  specialize (H ltac:(lia)). cbn [Z.add] in H. 
  replace (Calendar.era_start + (0 + doe))%Z with (Calendar.era_start + doe)%Z in H by ring.
  replace (Calendar.era_start + (0 + doe + 1))%Z
    with (Calendar.era_start + (doe + 1))%Z in H by ring.
  lia.
Qed.

(** Later days are later dates. *)
Lemma ymd_lt (a b : Z) : (a < b)%Z -> (Calendar.ymd a < Calendar.ymd b)%Z.
Proof.
  intros H. replace b with (a + 1 + Z.of_nat (Z.to_nat (b - a - 1)))%Z by lia.
  induction (Z.to_nat (b - a - 1)) as [|n IH].
  - rewrite Z.add_0_r. apply ymd_succ.
  - rewrite Nat2Z.inj_succ.
    replace (a + 1 + Z.succ (Z.of_nat n))%Z with (a + 1 + Z.of_nat n + 1)%Z by lia.
    pose proof (ymd_succ (a + 1 + Z.of_nat n)). lia.
Qed.

Lemma ymd_compare (a b : Z) : (Calendar.ymd a ?= Calendar.ymd b)%Z = (a ?= b)%Z.
Proof.
  destruct (Z.compare_spec a b) as [->|H|H].
  - apply Z.compare_refl.
  - apply Z.compare_lt_iff. apply ymd_lt. exact H.
  - apply Z.compare_gt_iff. apply ymd_lt. exact H.
Qed.

Lemma digit_cases (n : Z) :
  (0 <= n <= 9)%Z ->
  n = 0%Z \/ n = 1%Z \/ n = 2%Z \/ n = 3%Z \/ n = 4%Z \/
  n = 5%Z \/ n = 6%Z \/ n = 7%Z \/ n = 8%Z \/ n = 9%Z.
Proof. lia. Qed.

Ltac each_digit H := apply digit_cases in H; repeat (destruct H as [H|H]); subst.

(** Digits compare as the numbers they stand for. *)
Lemma digit_compare (a b : Z) :
  (0 <= a <= 9)%Z -> (0 <= b <= 9)%Z ->
  Ascii.compare (Sqlite.digit a) (Sqlite.digit b) = (a ?= b)%Z.
Proof. intros Ha Hb. each_digit Ha; each_digit Hb; reflexivity. Qed.

Lemma two_compare (a b : Z) (s1 s2 : string) :
  (0 <= a < 100)%Z -> (0 <= b < 100)%Z ->
  String.compare (Sqlite.two a ++ s1) (Sqlite.two b ++ s2) =
  match (a ?= b)%Z with
  | Eq => String.compare s1 s2
  | o => o
  end.
Proof.
  intros Ha Hb. unfold Sqlite.two. cbn [String.append String.compare].
  rewrite !digit_compare by (Z.div_mod_to_equations; lia).
  destruct (Z.compare_spec (a / 10) (b / 10)) as [H1|H1|H1];
    [destruct (Z.compare_spec (a mod 10) (b mod 10)) as [H2|H2|H2]| |];
    destruct (Z.compare_spec a b) as [H|H|H]; try reflexivity;
    exfalso; Z.div_mod_to_equations; lia.
Qed.

Lemma four_compare (a b : Z) (s1 s2 : string) :
  (0 <= a < 10000)%Z -> (0 <= b < 10000)%Z ->
  String.compare (Sqlite.four a ++ s1) (Sqlite.four b ++ s2) =
  match (a ?= b)%Z with
  | Eq => String.compare s1 s2
  | o => o
  end.
Proof.
  intros Ha Hb. unfold Sqlite.four. rewrite !append_assoc.
  rewrite two_compare by (Z.div_mod_to_equations; lia).
  rewrite two_compare by (Z.div_mod_to_equations; lia).
  destruct (Z.compare_spec (a / 100) (b / 100)) as [H1|H1|H1];
    [destruct (Z.compare_spec (a mod 100) (b mod 100)) as [H2|H2|H2]| |];
    destruct (Z.compare_spec a b) as [H|H|H]; try reflexivity;
    exfalso; Z.div_mod_to_equations; lia.
Qed.

(** The text of a reading followed by [s], field by field. *)
Lemma civil_text_app (t : Z) (s : string) :
  (Sqlite.civil_text t ++ s)%string =
  let '(y, m, d) := Sqlite.civil_from_days (t / 86400) in
  (Sqlite.four y ++ String "-" (Sqlite.two m ++ String "-" (Sqlite.two d ++ String " "
     (Sqlite.two (t mod 86400 / 3600) ++ String ":"
        (Sqlite.two (t mod 86400 mod 3600 / 60) ++ String ":"
           (Sqlite.two (t mod 86400 mod 60) ++ s))))))%string.
Proof.
  unfold Sqlite.civil_text. destruct (Sqlite.civil_from_days (t / 86400)) as [[y m] d].
  cbv zeta. repeat (rewrite append_assoc; cbn [String.append]). reflexivity.
Qed.

(** The year of a reading of the years 0000 to 9999 has four digits. *)
Lemma civil_year_bounds (t : Z) :
  Calendar.four_digit_year t ->
  let '(y, m, d) := Sqlite.civil_from_days (t / 86400) in
  (0 <= y < 10000)%Z /\ (1 <= m <= 12)%Z /\ (1 <= d <= 31)%Z /\
  Calendar.ymd (t / 86400) = (y * 10000 + m * 100 + d)%Z.
Proof.
  unfold Calendar.four_digit_year, Calendar.first_second, Calendar.last_second.
  intros Ht.
  assert (-719528 <= t / 86400 <= 2932896)%Z as Hd by (Z.div_mod_to_equations; lia).
  pose proof (civil_month_and_day (t / 86400)) as Hm.
  assert (Calendar.ymd (-719528) <= Calendar.ymd (t / 86400))%Z as Hlo.
  { destruct (Z.eq_dec (t / 86400) (-719528)) as [->|Hne]; [lia|].
    apply Z.lt_le_incl, ymd_lt. lia. }
  assert (Calendar.ymd (t / 86400) <= Calendar.ymd 2932896)%Z as Hhi.
  { destruct (Z.eq_dec (t / 86400) 2932896) as [->|Hne]; [lia|].
    apply Z.lt_le_incl, ymd_lt. lia. }
  change (Calendar.ymd (-719528)) with 101%Z in Hlo.
  change (Calendar.ymd 2932896) with 99991231%Z in Hhi.
  unfold Calendar.month_and_day in Hm. unfold Calendar.ymd in *.
  destruct (Sqlite.civil_from_days (t / 86400)) as [[y m] d].
  rewrite !andb_true_iff, !Z.leb_le in Hm. lia.
Qed.

Lemma sep_compare (c : ascii) (s1 s2 : string) :
  String.compare (String c s1) (String c s2) = String.compare s1 s2.
Proof.
  cbn [String.compare]. unfold Ascii.compare. rewrite N.compare_refl. reflexivity.
Qed.

(** The texts of two readings compare as the readings do; what follows
    them decides between equal readings. *)
Lemma civil_text_compare (a b : Z) (s1 s2 : string) :
  Calendar.four_digit_year a -> Calendar.four_digit_year b ->
  String.compare (Sqlite.civil_text a ++ s1) (Sqlite.civil_text b ++ s2) =
  match (a ?= b)%Z with
  | Eq => String.compare s1 s2
  | o => o
  end.
Proof.
  intros Ha Hb. rewrite !civil_text_app.
  pose proof (civil_year_bounds a Ha) as Ba. pose proof (civil_year_bounds b Hb) as Bb.
  pose proof (ymd_compare (a / 86400) (b / 86400)) as Hc.
  destruct (Sqlite.civil_from_days (a / 86400)) as [[y1 m1] d1].
  destruct (Sqlite.civil_from_days (b / 86400)) as [[y2 m2] d2].
  destruct Ba as [By1 [Bm1 [Bd1 E1]]]. destruct Bb as [By2 [Bm2 [Bd2 E2]]].
  rewrite E1, E2 in Hc. clear E1 E2.
  assert ((y1 * 10000 + m1 * 100 + d1 < y2 * 10000 + m2 * 100 + d2 -> a / 86400 < b / 86400) /\
          (y1 * 10000 + m1 * 100 + d1 = y2 * 10000 + m2 * 100 + d2 -> a / 86400 = b / 86400) /\
          (y2 * 10000 + m2 * 100 + d2 < y1 * 10000 + m1 * 100 + d1 -> b / 86400 < a / 86400))%Z
    as [Hlt [Heq Hgt]].
  { revert Hc.
    destruct (Z.compare_spec (a / 86400) (b / 86400));
      destruct (Z.compare_spec (y1 * 10000 + m1 * 100 + d1) (y2 * 10000 + m2 * 100 + d2));
      intros Hc; try discriminate; lia. }
  clear Hc.
  rewrite four_compare, sep_compare, two_compare, sep_compare, two_compare, sep_compare,
    two_compare, sep_compare, two_compare, sep_compare, two_compare
    by (Z.div_mod_to_equations; lia).
  Z.div_mod_to_equations.
  repeat match goal with
         | |- match (?x ?= ?y)%Z with Eq => _ | Lt => _ | Gt => _ end = _ =>
             destruct (Z.compare_spec x y)
         end;
    destruct (Z.compare_spec a b); try reflexivity; exfalso; lia.
Qed.

Lemma int_digits_digit (n : bool) (a : Z) (s : string) :
  (0 <= a <= 9)%Z ->
  Sqlite.int_digits n (String (Sqlite.digit a) s) = Sqlite.int_digits true s.
Proof. intros Ha. each_digit Ha; reflexivity. Qed.

Lemma well_formed_number_digit (a : Z) (s : string) :
  (0 <= a <= 9)%Z ->
  Sqlite.well_formed_number (String (Sqlite.digit a) s) = Sqlite.int_digits true s.
Proof. intros Ha. each_digit Ha; reflexivity. Qed.

(** The text of a reading is no number, whatever follows it. *)
Lemma civil_text_no_number (t : Z) (s : string) :
  Calendar.four_digit_year t ->
  Sqlite.well_formed_number (Sqlite.civil_text t ++ s) = false.
Proof.
  intros Ht. rewrite civil_text_app. pose proof (civil_year_bounds t Ht) as B.
  destruct (Sqlite.civil_from_days (t / 86400)) as [[y m] d].
  destruct B as [By _]. unfold Sqlite.four, Sqlite.two. cbn [String.append].
  rewrite well_formed_number_digit by (Z.div_mod_to_equations; lia).
  rewrite !int_digits_digit by (Z.div_mod_to_equations; lia).
  reflexivity.
Qed.

(** WHERE posted < datetime('now', '-1 hour') on a posted that is the
    text of a reading [t] followed by anything: the reading is before the
    reading of an hour ago. *)
Lemma posted_before_cutoff_reading (t now : Z) (s : string) :
  Calendar.four_digit_year t -> Calendar.four_digit_year (now - 3600) ->
  Sqlite.posted_before_cutoff (Sqlite.civil_text t ++ s) now = (t <? now - 3600)%Z.
Proof.
  intros Ht Hn.
  unfold Sqlite.posted_before_cutoff, Sqlite.less_than_text, Sqlite.datetime_now_minus_1_hour.
  rewrite civil_text_no_number by exact Ht.
  unfold Sqlite.text_lt.
  rewrite <- (append_empty_r (Sqlite.civil_text (now - 3600))).
  rewrite civil_text_compare by assumption.
  unfold Z.ltb. destruct (t ?= now - 3600)%Z; try reflexivity.
  destruct s; reflexivity.
Qed.

(** The DELETE of craigslist_bot.go removes a row when its wall-clock
    reading in the local zone is before the UTC reading of an hour ago. *)
Lemma go_older_than_an_hour_reading (local : Z -> Z) (now : Z) (r : Go.Listing) :
  Calendar.four_digit_year (Go.Posted r + local (Go.Posted r)) ->
  Calendar.four_digit_year (now - 3600) ->
  Go.older_than_an_hour local now r
  = (Go.Posted r + local (Go.Posted r) <? now - 3600)%Z.
Proof.
  intros Hp Hn. unfold Go.older_than_an_hour, Go.posted_text.
  apply posted_before_cutoff_reading; assumption.
Qed.

(** ** C8: expiry *)

(** deleteOldListings, when the statement succeeds, keeps exactly the
    rows for which SQLite does not find posted below the cut-off. *)
Lemma go_deleteOldListings_spec (db : Go.DB) (local : Z -> Z) (now : Z) (r : Go.Listing) :
  In r (fst (Go.deleteOldListings db local now None)) <->
  In r db /\ Go.older_than_an_hour local now r = false.
Proof.
  unfold Go.deleteOldListings. cbn [fst].
  apply (delete_spec Go.ListingURL).
Qed.

(** The DELETE of main.js decides on the posted column alone, whatever
    the notified flag. *)
Lemma js_deleteOldListings_spec (w : Js.World) (db : Js.DB) (r : Js.row) :
  Js.delete_error w = None ->
  (In r (fst (Js.deleteOldListings w db)) <->
   In r db /\
   Sqlite.posted_before_cutoff (Js.posted (Js.fields r)) (Js.sql_now w) = false).
Proof.
  intros He. unfold Js.deleteOldListings. rewrite He. cbn [fst].
  apply (delete_spec Js.url_of).
Qed.

(** C8 (fails in both programs).  It is 2024-10-03 12:00:00 UTC.

    craigslist_bot.go with time.Local four hours west of UTC: the couch
    on the page is extracted with Posted now and inserted into the empty
    table; its posted is stored as "2024-10-03 08:00:00-04:00"; the
    cut-off of the DELETE of the same pass is "2024-10-03 11:00:00"; the
    stored text compares below it and the row, seconds old, is deleted:
    the pass notifies, and leaves the table empty.  With time.Local nine
    hours east of UTC a row posted two hours ago is stored as
    "2024-10-03 19:00:00+09:00" and the DELETE keeps it.  In general, for
    the years 0000 to 9999, the DELETE keeps the rows whose reading of
    the local wall clock is not before the UTC reading of an hour ago:
    the offset of the zone is added to the age of the row.

    main.js stores as posted the text of the page before the separator
    it looks for.  The row of the entry whose text reads "1h ago..." is
    inserted and deleted by the same call, since "1" compares below
    "2024-..."; the row whose text reads "5m ago..." is still kept by
    the DELETE a year later.  In general the DELETE keeps the rows
    whose posted text does not compare below the cut-off, whatever their
    notified flag. *)
Theorem C8_expiry_compares_texts :
  let now := 1727956800%Z in
  let west := Fixture.zoned (-14400) (Fixture.body [Fixture.couch_item]) now in
  let lamp := {| Js.title := "Lamp"; Js.price := ""; Js.city := "Unknown City";
                 Js.posted := ("1h ago" ++ Go.separator ++ "Concord")%string;
                 Js.listing_url := "" |} in
  let seen := {| Js.fields :=
                   {| Js.title := "Couch"; Js.price := "Free"; Js.city := "Unknown City";
                      Js.posted := ("5m ago" ++ Go.separator ++ "Charlotte")%string;
                      Js.listing_url := "/couch" |};
                 Js.notified := true |} in
  Go.posted_text (Go.local_offset west) now = "2024-10-03 08:00:00-04:00"%string /\
  Sqlite.datetime_now_minus_1_hour now = "2024-10-03 11:00:00"%string /\
  Go.tick [] west =
    ([],
     [Go.ExecInsert (Fixture.couch now);
      Go.ClientDo (Go.NewRequest (Go.alert (Fixture.couch now)));
      Go.Printed ("Notification sent: " ++ Go.alert (Fixture.couch now))%string;
      Go.ExecDelete;
      Go.Slept 3000000000],
     Go.AwaitingTick) /\
  Go.posted_text (fun _ => 32400%Z) (now - 7200) = "2024-10-03 19:00:00+09:00"%string /\
  Go.deleteOldListings [Fixture.couch (now - 7200)] (fun _ => 32400%Z) now None =
    ([Fixture.couch (now - 7200)], None) /\
  (forall (db : Go.DB) (local : Z -> Z) (now : Z) (r : Go.Listing),
      Calendar.four_digit_year (Go.Posted r + local (Go.Posted r)) ->
      Calendar.four_digit_year (now - 3600) ->
      (In r (fst (Go.deleteOldListings db local now None)) <->
       In r db /\ (now - 3600 <= Go.Posted r + local (Go.Posted r))%Z)) /\
  Js.evaluate (Fixture.body [Fixture.linkless_item]) = [lamp] /\
  (exists tr,
      Js.interval (Fixture.calm_js_at (Fixture.body [Fixture.linkless_item]) now) []
      = inr ([], tr)) /\
  Js.deleteOldListings (Fixture.calm_js_at (Fixture.body []) (now + 31536000)) [seen] =
    ([seen], [Js.RunDelete]) /\
  (forall (w : Js.World) (db : Js.DB) (r : Js.row),
      Js.delete_error w = None ->
      (In r (fst (Js.deleteOldListings w db)) <->
       In r db /\
       Sqlite.posted_before_cutoff (Js.posted (Js.fields r)) (Js.sql_now w) = false)).
Proof.
  cbv zeta.
  split; [vm_compute; reflexivity|]. split; [vm_compute; reflexivity|].
  split; [vm_compute; reflexivity|]. split; [vm_compute; reflexivity|].
  split; [vm_compute; reflexivity|].
  split.
  { intros db local now r Hp Hn. rewrite go_deleteOldListings_spec.
    rewrite (go_older_than_an_hour_reading local now r Hp Hn), Z.ltb_ge. tauto. }
  split; [vm_compute; reflexivity|].
  split; [eexists; vm_compute; reflexivity|].
  split; [vm_compute; reflexivity|].
  intros w db r He. apply js_deleteOldListings_spec. exact He.
Qed.

(** ** C9: the notification *)

Ltac occurs_between before after :=
  exists before, after;
  rewrite ?append_empty_r, ?append_assoc; reflexivity.

Lemma go_alert_says (l : Go.Listing) :
  Spec.says (Go.alert l) (Go.Title l) (Go.Price l) (Go.City l).
Proof.
  unfold Spec.says, Go.alert. split; [|split].
  - occurs_between "New free or unknown price listing! "%string
                   (" (" ++ Go.Price l ++ ") " ++ Go.City l)%string.
  - occurs_between ("New free or unknown price listing! " ++ Go.Title l ++ " (")%string
                   (") " ++ Go.City l)%string.
  - occurs_between ("New free or unknown price listing! " ++ Go.Title l ++ " ("
                      ++ Go.Price l ++ ") ")%string
                   ""%string.
Qed.

Lemma js_message_says (l : Js.listing) :
  Spec.says (Js.title l ++ " (" ++ Js.or_else (Some (Js.price l)) "Unknown Price" ++ ") "
               ++ Js.city l)%string
            (Js.title l) (Spec.price_or "Unknown Price" (Js.price l)) (Js.city l).
Proof.
  replace (Js.or_else (Some (Js.price l)) "Unknown Price")
    with (Spec.price_or "Unknown Price" (Js.price l))
    by (unfold Spec.price_or, Js.or_else, Js.truthy;
        destruct (String.eqb (Js.price l) ""); reflexivity).
  unfold Spec.says. split; [|split].
  - occurs_between ""%string
                   (" (" ++ Spec.price_or "Unknown Price" (Js.price l) ++ ") "
                      ++ Js.city l)%string.
  - occurs_between (Js.title l ++ " (")%string (") " ++ Js.city l)%string.
  - occurs_between (Js.title l ++ " (" ++ Spec.price_or "Unknown Price" (Js.price l)
                      ++ ") ")%string
                   ""%string.
Qed.

(** The table main.js leaves does not depend on how the requests are
    answered. *)
Lemma js_insertAll_db_ignores_http (w : Js.World) (answers : nat -> Js.HttpOutcome)
      (listings : list Js.listing) :
  forall (i : nat) (db : Js.DB),
    fst (Js.insertAll (Spec.with_http_js w answers) i db listings) =
    fst (Js.insertAll w i db listings).
Proof.
  induction listings as [|l rest IH]; intros i db; simpl; [reflexivity|].
  assert (fst (Js.insertListing (Spec.with_http_js w answers) i db l) =
          fst (Js.insertListing w i db l)) as Hone.
  { unfold Js.insertListing. simpl.
    destruct (Js.insert_error w i); [reflexivity|].
    destruct (Store.insert_or_ignore Js.url_of db _) as [db1 changes].
    destruct (0 <? changes)%nat; [|reflexivity].
    destruct (Js.price_condition (Js.price l)); [|reflexivity].
    destruct (Js.markAsNotified db1 (Js.listing_url l) (Js.update_error w i)). reflexivity. }
  destruct (Js.insertListing (Spec.with_http_js w answers) i db l) as [a1 t1].
  destruct (Js.insertListing w i db l) as [a2 t2]. simpl in Hone. subst a2.
  specialize (IH (S i) a1).
  destruct (Js.insertAll (Spec.with_http_js w answers) (S i) a1 rest),
           (Js.insertAll w (S i) a1 rest). simpl in *. assumption.
Qed.

(** C9 as stated fails in craigslist_bot.go: for a listing with an empty
    price the text after the fixed banner is "Lamp () Concord"; the price
    is written as it is and the word "unknown" does not occur in it, in
    any case of its letters.  main.js writes "Lamp (Unknown Price)
    Concord" for the same record. *)
Lemma C9_go_writes_empty_price_as_is :
  Go.alert {| Go.Title := "Lamp"; Go.Price := ""; Go.City := "Concord";
              Go.Posted := 0; Go.ListingURL := "/lamp" |}
  = ("New free or unknown price listing! " ++ "Lamp () Concord")%string /\
  Text.contains "unknown" (Text.ToLower "Lamp () Concord") = false /\
  filter Spec.is_fetch
    (Js.sendNotification
       {| Js.title := "Lamp"; Js.price := ""; Js.city := "Concord";
          Js.posted := ""; Js.listing_url := "/lamp" |} (Js.Responded 200 "ok"))
  = [Js.Fetch {| Js.method := "POST";
                 Js.url := "https://ntfy.sh/charlottecraig";
                 Js.headers :=
                   [("Title", "New Craigslist Listing Alert");
                    ("Priority", "high");
                    ("Actions", "view, Open Listing, /lamp, clear=true")]%string;
                 Js.body := "Lamp (Unknown Price) Concord" |}].
Proof. split; [reflexivity|]. split; reflexivity. Qed.

(** C9, amended.  Go: the message is the banner "New free or unknown price
    listing! " followed by the title, the price in parentheses as it is
    (so "()" when it is empty) and the city; sendNotification makes one
    POST of it to https://ntfy.sh/charlottecraig with a Title header and
    Priority high and, when the answer is not 200, prints one line and
    does nothing else; the table the loop leaves is the same whatever the
    answers.  main.js: the message is the title, the price in
    parentheses, or "Unknown Price" when it is empty, and the city; the
    one POST carries a Title header, Priority high and an Actions header
    with a view action on the listing URL; its answer is printed,
    whatever the status, and the table is the same whatever the
    answers. *)
Theorem C9_notification_request_and_soft_failure :
  forall (l : Go.Listing) (j : Js.listing) (code : Z) (text : string),
    Spec.says (Go.alert l) (Go.Title l) (Go.Price l) (Go.City l) /\
    Go.sendNotification (Go.alert l) (Go.Response code) =
      [Go.ClientDo {| Go.Method := "POST";
                      Go.URL := "https://ntfy.sh/charlottecraig";
                      Go.Header := [("Title", "Craigslist Alert"); ("Priority", "high")];
                      Go.Body := ("New free or unknown price listing! " ++ Go.Title l
                                  ++ " (" ++ Go.Price l ++ ") " ++ Go.City l)%string |};
       Go.Printed (if (code =? 200)%Z
                   then "Notification sent: " ++ Go.alert l
                   else "Failed to send notification: Status code " ++ Text.itoa code)%string] /\
    (forall w answers db listings,
        fst (Go.range (Spec.with_http w answers) 0 db listings) =
        fst (Go.range w 0 db listings)) /\
    Js.sendNotification j (Js.Responded code text) =
      [Js.Fetch {| Js.method := "POST";
                   Js.url := "https://ntfy.sh/charlottecraig";
                   Js.headers :=
                     [("Title", "New Craigslist Listing Alert");
                      ("Priority", "high");
                      ("Actions",
                       ("view, Open Listing, " ++ Js.listing_url j ++ ", clear=true")%string)];
                   Js.body := (Js.title j ++ " ("
                               ++ Spec.price_or "Unknown Price" (Js.price j)
                               ++ ") " ++ Js.city j)%string |};
       Js.ConsoleLog ("Notification sent: " ++ text)%string] /\
    Spec.says (Js.title j ++ " (" ++ Spec.price_or "Unknown Price" (Js.price j)
                 ++ ") " ++ Js.city j)%string
              (Js.title j) (Spec.price_or "Unknown Price" (Js.price j)) (Js.city j) /\
    (forall w answers db listings,
        fst (Js.insertAll (Spec.with_http_js w answers) 0 db listings) =
        fst (Js.insertAll w 0 db listings)).
Proof.
  intros l j code text.
  assert (Js.or_else (Some (Js.price j)) "Unknown Price"
          = Spec.price_or "Unknown Price" (Js.price j)) as Hor
    by (unfold Spec.price_or, Js.or_else, Js.truthy;
        destruct (String.eqb (Js.price j) ""); reflexivity).
  split; [apply go_alert_says|].
  split; [simpl; destruct (code =? 200)%Z; reflexivity|].
  split; [intros; apply go_range_db_ignores_http|].
  split; [unfold Js.sendNotification; rewrite Hor; reflexivity|].
  split; [pose proof (js_message_says j) as Hs; rewrite Hor in Hs; exact Hs|].
  intros; apply js_insertAll_db_ignores_http.
Qed.

(* ================================================================== *)
(** * Further properties of the two programs *)
(* ================================================================== *)

(** ** Text *)

Lemma drop_append (a b : string) : Obs.drop (String.length a) (a ++ b)%string = b.
Proof. induction a as [|c a IH]; simpl; [destruct b; reflexivity | exact IH]. Qed.

Lemma drop_0 (s : string) : Obs.drop 0 s = s.
Proof. destruct s; reflexivity. Qed.

Lemma concat_cons (sep x : string) (xs : list string) :
  xs <> [] -> String.concat sep (x :: xs) = (x ++ sep ++ String.concat sep xs)%string.
Proof. destruct xs; [congruence | reflexivity]. Qed.

Lemma split_from_not_nil (sep : string) (k : nat) (s : string) :
  Text.split_from sep k s <> [].
Proof.
  pose proof (split_from_nonempty sep s k) as H.
  destruct (Text.split_from sep k s); [simpl in H; lia | discriminate].
Qed.

(** The pieces put back together with the separator, after [skip] bytes. *)
Lemma concat_split_from (sep : string) (s : string) :
  sep <> ""%string ->
  forall skip, String.concat sep (Text.split_from sep skip s) = Obs.drop skip s.
Proof.
  intros Hsep. induction s as [|c s IH]; intros skip.
  - destruct skip; reflexivity.
  - cbn [Text.split_from]. destruct skip as [|k]; [|rewrite IH; reflexivity].
    destruct (String.prefix sep (String c s)) eqn:Hp.
    + rewrite concat_cons by apply split_from_not_nil.
      rewrite IH. apply prefix_iff in Hp. destruct Hp as [rest Hrest].
      destruct sep as [|c' sep']; [congruence|].
      simpl in Hrest. inversion Hrest; subst.
      simpl. rewrite Nat.sub_0_r, drop_append. reflexivity.
    + specialize (IH 0). rewrite drop_0 in IH.
      destruct (Text.split_from sep 0 s) as [|p ps] eqn:E;
        [exfalso; exact (split_from_not_nil sep 0 s E)|].
      destruct ps as [|q qs].
      * simpl in *. rewrite IH. reflexivity.
      * rewrite concat_cons in IH by discriminate.
        rewrite concat_cons by discriminate.
        rewrite <- IH. reflexivity.
Qed.

(** X1.  Split loses nothing: for a non-empty separator, the pieces of
    [Split s sep] joined with [sep] between them are [s] again, so the
    metadata text can be rebuilt from its parts. *)
Theorem Split_join_round_trip :
  forall (s sep : string),
    sep <> ""%string ->
    String.concat sep (Text.Split s sep) = s.
Proof.
  intros s sep Hsep. unfold Text.Split.
  rewrite (concat_split_from sep s Hsep 0). apply drop_0.
Qed.

Lemma Split_join_round_trip_witness :
  Go.separator <> ""%string /\
  String.concat Go.separator
    (Text.Split ("5m ago" ++ Go.separator ++ "Charlotte")%string Go.separator) =
  ("5m ago" ++ Go.separator ++ "Charlotte")%string.
Proof.
  split; [discriminate|].
  apply (Split_join_round_trip ("5m ago" ++ Go.separator ++ "Charlotte")%string Go.separator).
  discriminate.
Defined.

(** *** Trimming *)

Lemma rev_app (a b : string) : Text.rev (a ++ b) = (Text.rev b ++ Text.rev a)%string.
Proof.
  induction a as [|c a IH]; cbn [String.append Text.rev].
  - symmetry. apply append_empty_r.
  - rewrite IH. apply append_assoc.
Qed.

Lemma rev_involutive (s : string) : Text.rev (Text.rev s) = s.
Proof.
  induction s as [|c s IH]; cbn [Text.rev]; [reflexivity|].
  rewrite rev_app, IH. reflexivity.
Qed.

Lemma strip_stripped (ws : list string) (s : string) :
  forall skip, Spec.stripped ws (Text.strip ws skip s).
Proof.
  induction s as [|c s IH]; intros skip; cbn [Text.strip]; [left; reflexivity|].
  destruct skip as [|k]; [|apply IH].
  destruct (find (fun p => String.prefix p (String c s)) ws) eqn:E; [apply IH|].
  right. exact E.
Qed.

Lemma strip_fixed (ws : list string) (s : string) :
  Spec.stripped ws s -> Text.strip ws 0 s = s.
Proof.
  intros [->|H]; [reflexivity|].
  destruct s as [|c s]; [reflexivity|]. cbn [Text.strip]. rewrite H. reflexivity.
Qed.

(** What is stripped is taken from the start. *)
Lemma strip_suffix (ws : list string) (s : string) :
  forall skip, exists before, s = (before ++ Text.strip ws skip s)%string.
Proof.
  induction s as [|c s IH]; intros skip; cbn [Text.strip]; [exists ""%string; reflexivity|].
  destruct skip as [|k].
  - destruct (find (fun p => String.prefix p (String c s)) ws).
    + destruct (IH (String.length s0 - 1)) as [before H].
      exists (String c before). cbn [String.append]. rewrite <- H. reflexivity.
    + exists ""%string. reflexivity.
  - destruct (IH k) as [before H].
    exists (String c before). cbn [String.append]. rewrite <- H. reflexivity.
Qed.

Lemma TrimRight_prefix (ws : list string) (s : string) :
  exists after, s = (Text.TrimRight ws s ++ after)%string.
Proof.
  unfold Text.TrimRight.
  destruct (strip_suffix (map Text.rev ws) (Text.rev s) 0) as [before H].
  exists (Text.rev before).
  rewrite <- rev_app, <- H. symmetry. apply rev_involutive.
Qed.

Lemma prefix_app (p a b : string) :
  String.prefix p a = true -> String.prefix p (a ++ b) = true.
Proof.
  rewrite !prefix_iff. intros [rest ->]. exists (rest ++ b)%string. apply append_assoc.
Qed.

Lemma find_none_all {A : Type} (f : A -> bool) (l : list A) :
  (forall x, In x l -> f x = false) -> find f l = None.
Proof.
  induction l as [|x l IH]; intros H; cbn [find]; [reflexivity|].
  rewrite (H x (or_introl eq_refl)). apply IH. intros y Hy. apply H. right. exact Hy.
Qed.

(** Trimming the end of a text that starts with no white space leaves a
    text that starts with none. *)
Lemma TrimRight_stripped (ws ws' : list string) (s : string) :
  (forall p, In p ws -> p <> ""%string) ->
  Spec.stripped ws s -> Spec.stripped ws (Text.TrimRight ws' s).
Proof.
  intros Hne [->|H]; [left; reflexivity|].
  destruct (TrimRight_prefix ws' s) as [after Hs].
  destruct (Text.TrimRight ws' s) as [|c t] eqn:E; [left; reflexivity|].
  right. apply find_none_all. intros p Hp.
  destruct (String.prefix p (String c t)) eqn:Hpre; [|reflexivity].
  apply (prefix_app _ _ after) in Hpre. rewrite <- Hs in Hpre.
  rewrite (find_none _ _ H p Hp) in Hpre. discriminate.
Qed.

Lemma TrimRight_idem (ws : list string) (s : string) :
  Text.TrimRight ws (Text.TrimRight ws s) = Text.TrimRight ws s.
Proof.
  unfold Text.TrimRight. rewrite rev_involutive.
  rewrite (strip_fixed _ _ (strip_stripped _ _ 0)). reflexivity.
Qed.

Lemma go_space_nonempty (p : string) : In p Text.go_space -> p <> ""%string.
Proof.
  intros H. repeat (destruct H as [<-|H]; [discriminate|]). destruct H.
Qed.

(** strings.TrimSpace of a trimmed text is the text. *)
Lemma TrimSpace_idem (s : string) : Text.TrimSpace (Text.TrimSpace s) = Text.TrimSpace s.
Proof.
  unfold Text.TrimSpace at 1 2. unfold Text.TrimLeft at 1.
  rewrite strip_fixed.
  - fold (Text.TrimSpace s). unfold Text.TrimSpace. apply TrimRight_idem.
  - apply (TrimRight_stripped _ _ _ go_space_nonempty). apply strip_stripped.
Qed.

(** X2.  The price and the city of every listing that the Go extraction
    returns are trimmed: trimming them again changes nothing. *)
Theorem go_extracted_fields_are_trimmed :
  forall (clock : nat -> Z) (doc : Dom.node) (out : list Go.Listing),
    Go.extract clock doc = Some out ->
    Forall (fun l => Text.TrimSpace (Go.Price l) = Go.Price l /\
                     Text.TrimSpace (Go.City l) = Go.City l) out.
Proof.
  intros clock doc out H.
  destruct (go_Each_sound _ _ _ _ _ H) as [new [Hout Hall]].
  simpl in Hout. subst out.
  eapply Forall_impl; [|exact Hall].
  intros l [j [s [_ Hc]]]. unfold Go.each_result in Hc.
  destruct (Dom.SelectionAttr "href" (Dom.Find Dom.sel_anchor s)); [|discriminate].
  destruct (nth_error _ 1); [|discriminate].
  inversion Hc; subst; simpl. split; apply TrimSpace_idem.
Qed.

Lemma go_extracted_fields_are_trimmed_witness :
  Go.extract (fun _ => 0%Z) (Fixture.body [Fixture.couch_item]) = Some [Fixture.couch 0] /\
  Forall (fun l => Text.TrimSpace (Go.Price l) = Go.Price l /\
                   Text.TrimSpace (Go.City l) = Go.City l) [Fixture.couch 0].
Proof.
  split; [reflexivity|].
  exact (go_extracted_fields_are_trimmed (fun _ => 0%Z) (Fixture.body [Fixture.couch_item])
           [Fixture.couch 0] eq_refl).
Defined.

(** ** Extraction *)

Lemma go_Each_urls (clock : nat -> Z) (sel : list Dom.node) :
  forall (i : nat) (acc out : list Go.Listing),
    Go.Each clock i sel acc = Some out ->
    map Go.ListingURL out =
    map Go.ListingURL acc ++
    flat_map (fun s => match Obs.href_of s with Some h => [h] | None => [] end) sel.
Proof.
  induction sel as [|s sel IH]; intros i acc out H; simpl in H.
  - inversion H; subst. simpl. symmetry. apply app_nil_r.
  - destruct (Go.each_result (clock i) s) as [|l|] eqn:E; [| |discriminate].
    + apply go_callback_returned in E. simpl. unfold Obs.href_of at 1. rewrite E.
      apply (IH _ _ _ H).
    + apply go_callback_appended in E. destruct E as [E _].
      simpl. unfold Obs.href_of at 1. rewrite E.
      rewrite (IH _ _ _ H), map_app, <- app_assoc. reflexivity.
Qed.

Lemma go_extract_hrefs (clock : nat -> Z) (doc : Dom.node) (out : list Go.Listing) :
  Go.extract clock doc = Some out -> map Go.ListingURL out = Obs.hrefs doc.
Proof. intros H. apply (go_Each_urls _ _ _ _ _ H). Qed.

(** X3.  When the Go extraction completes, the URLs of the listings it
    returns are the hrefs of the matched elements that have one, one
    listing per such element, in document order. *)
Theorem go_extract_urls_in_document_order :
  forall (clock : nat -> Z) (doc : Dom.node) (out : list Go.Listing),
    Go.extract clock doc = Some out ->
    map Go.ListingURL out = Obs.hrefs doc /\
    List.length out <= List.length (Dom.Find Dom.sel_result doc).
Proof.
  intros clock doc out H.
  pose proof (go_extract_hrefs clock doc out H) as Hu.
  split; [exact Hu|].
  rewrite <- (length_map Go.ListingURL), Hu. unfold Obs.hrefs.
  induction (Dom.Find Dom.sel_result doc) as [|s sel IH]; simpl; [lia|].
  rewrite length_app. destruct (Obs.href_of s); simpl; lia.
Qed.

Lemma go_extract_urls_in_document_order_witness :
  let doc := Fixture.body [Fixture.linkless_item; Fixture.couch_item] in
  Go.extract (fun _ => 0%Z) doc = Some [Fixture.couch 0] /\
  map Go.ListingURL [Fixture.couch 0] = Obs.hrefs doc /\
  List.length [Fixture.couch 0] <= List.length (Dom.Find Dom.sel_result doc).
Proof.
  cbv zeta. split; [reflexivity|].
  exact (go_extract_urls_in_document_order (fun _ => 0%Z)
           (Fixture.body [Fixture.linkless_item; Fixture.couch_item])
           [Fixture.couch 0] eq_refl).
Defined.

Lemma go_Each_panics (clock : nat -> Z) (sel : list Dom.node) :
  forall (i : nat) (acc : list Go.Listing),
    Go.Each clock i sel acc = None <->
    Exists (fun s => Obs.href_of s <> None /\
                     ~ Text.occurs_in Go.separator
                         (Text.TrimSpace (Dom.SelectionText (Dom.Find Dom.sel_meta s)))) sel.
Proof.
  induction sel as [|s sel IH]; intros i acc; simpl.
  - split; [discriminate | intros H; inversion H].
  - pose proof (go_callback_panics_without_separator (clock i) s) as Hp.
    destruct (Go.each_result (clock i) s) as [|l|] eqn:E.
    + rewrite IH. split; [intros H; right; exact H|].
      intros H. inversion H as [x xs Hx|x xs Hx]; subst; [|exact Hx].
      apply Hp in Hx. discriminate.
    + rewrite IH. split; [intros H; right; exact H|].
      intros H. inversion H as [x xs Hx|x xs Hx]; subst; [|exact Hx].
      apply Hp in Hx. discriminate.
    + split; [|reflexivity]. intros _. left. apply Hp. reflexivity.
Qed.

(** X4.  The Go extraction of a page panics exactly when some matched
    element has a link and the separator does not occur in its trimmed
    metadata text; whether it does is independent of the clock and of
    the other elements. *)
Theorem go_extract_panics_iff :
  forall (clock : nat -> Z) (doc : Dom.node),
    Go.extract clock doc = None <->
    Exists (fun s => Obs.href_of s <> None /\
                     ~ Text.occurs_in Go.separator
                         (Text.TrimSpace (Dom.SelectionText (Dom.Find Dom.sel_meta s))))
           (Dom.Find Dom.sel_result doc).
Proof. intros clock doc. unfold Go.extract. apply go_Each_panics. Qed.

Lemma js_listing_url_of_href (item : Dom.node) :
  Js.listing_url (Js.item_of item) =
  match Obs.href_of item with
  | Some h => if Js.truthy h then h else ""%string
  | None => ""%string
  end.
Proof.
  unfold Js.item_of, Obs.href_of, Dom.querySelector, Dom.SelectionAttr. simpl.
  destruct (Dom.Find Dom.sel_anchor item) as [|a rest]; simpl; [reflexivity|].
  destruct (Dom.getAttribute "href" a); reflexivity.
Qed.

Lemma js_urls_of_hrefs (doc : Dom.node) :
  filter Js.truthy (map Js.listing_url (Js.evaluate doc)) = filter Js.truthy (Obs.hrefs doc).
Proof.
  unfold Js.evaluate, Obs.hrefs.
  induction (Dom.Find Dom.sel_result doc) as [|s sel IH]; [reflexivity|].
  cbn [map flat_map filter]. rewrite js_listing_url_of_href, filter_app, <- IH.
  destruct (Obs.href_of s) as [h|]; [|reflexivity].
  cbn [filter]. destruct (Js.truthy h) eqn:Eh; [rewrite Eh|]; reflexivity.
Qed.

(** X5.  The two variants agree on the links: whenever the Go extraction of
    a page completes, the non-empty URLs of the records main.js extracts
    from the same page are the non-empty URLs of the Go listings, in the
    same order. *)
Theorem extracted_urls_agree :
  forall (clock : nat -> Z) (doc : Dom.node) (out : list Go.Listing),
    Go.extract clock doc = Some out ->
    filter Js.truthy (map Js.listing_url (Js.evaluate doc)) =
    filter Js.truthy (map Go.ListingURL out).
Proof.
  intros clock doc out H.
  rewrite (go_extract_hrefs clock doc out H). apply js_urls_of_hrefs.
Qed.

Lemma extracted_urls_agree_witness :
  let doc := Fixture.body [Fixture.linkless_item; Fixture.couch_item] in
  Go.extract (fun _ => 0%Z) doc = Some [Fixture.couch 0] /\
  filter Js.truthy (map Js.listing_url (Js.evaluate doc)) =
  filter Js.truthy (map Go.ListingURL [Fixture.couch 0]).
Proof.
  cbv zeta. split; [reflexivity|].
  exact (extracted_urls_agree (fun _ => 0%Z)
           (Fixture.body [Fixture.linkless_item; Fixture.couch_item])
           [Fixture.couch 0] eq_refl).
Defined.

(** ** The price test *)

Lemma lower_char_eqb_open (c : ascii) :
  Ascii.eqb (Text.lower_char c) "("%char = Ascii.eqb c "("%char.
Proof. destruct c as [[] [] [] [] [] [] [] []]; reflexivity. Qed.

Lemma lower_char_eqb_close (c : ascii) :
  Ascii.eqb (Text.lower_char c) ")"%char = Ascii.eqb c ")"%char.
Proof. destruct c as [[] [] [] [] [] [] [] []]; reflexivity. Qed.

Lemma ToLower_eqb_empty (p : string) :
  String.eqb (Text.ToLower p) "" = String.eqb p "".
Proof. destruct p; reflexivity. Qed.

Lemma ToLower_eqb_parens (p : string) :
  String.eqb (Text.ToLower p) "()" = String.eqb p "()".
Proof.
  destruct p as [|c1 [|c2 p]]; [reflexivity | |].
  - simpl. rewrite lower_char_eqb_open. reflexivity.
  - simpl. rewrite lower_char_eqb_open, lower_char_eqb_close.
    rewrite ToLower_eqb_empty. reflexivity.
Qed.

Lemma go_price_condition_lower (p : string) :
  Go.price_condition p =
  String.eqb (Text.ToLower p) "free" || String.eqb (Text.ToLower p) ""
  || String.eqb (Text.ToLower p) "()".
Proof.
  unfold Go.price_condition. rewrite ToLower_eqb_empty, ToLower_eqb_parens. reflexivity.
Qed.

(** X6.  The price test looks at the price up to the case of its ASCII
    letters only: two prices with the same lower-case form get the same
    verdict, and the tests of craigslist_bot.go and of main.js, written
    in different orders, give the same verdict on every price. *)
Theorem price_test_ignores_case :
  forall (p q : string),
    Text.ToLower p = Text.ToLower q ->
    Go.price_condition p = Go.price_condition q /\
    Js.price_condition p = Go.price_condition p.
Proof.
  intros p q H. split.
  - rewrite !go_price_condition_lower, H. reflexivity.
  - unfold Js.price_condition, Go.price_condition, Js.truthy.
    rewrite negb_involutive.
    destruct (String.eqb p ""), (String.eqb (Text.ToLower p) "free"), (String.eqb p "()");
      reflexivity.
Qed.

Lemma price_test_ignores_case_witness :
  Text.ToLower "FrEe" = Text.ToLower "free" /\
  Go.price_condition "FrEe" = Go.price_condition "free" /\
  Js.price_condition "FrEe" = Go.price_condition "FrEe".
Proof.
  split; [reflexivity|].
  exact (price_test_ignores_case "FrEe" "free" eq_refl).
Defined.

(** ** The loop over the listings *)

Lemma inserts_app (a b : list Go.event) :
  Obs.inserts (a ++ b) = Obs.inserts a ++ Obs.inserts b.
Proof. apply flat_map_app. Qed.

Lemma requests_app (a b : list Go.event) :
  Obs.requests (a ++ b) = Obs.requests a ++ Obs.requests b.
Proof. apply flat_map_app. Qed.

Lemma lines_app (a b : list Go.event) :
  Obs.lines (a ++ b) = Obs.lines a ++ Obs.lines b.
Proof. apply flat_map_app. Qed.

Lemma go_sendNotification_obs (message : string) (o : Go.HttpOutcome) :
  Obs.inserts (Go.sendNotification message o) = [] /\
  Obs.requests (Go.sendNotification message o) =
    match o with
    | Go.RequestError _ => []
    | _ => [Go.NewRequest message]
    end /\
  List.length (Obs.lines (Go.sendNotification message o)) = 1.
Proof.
  destruct o as [err|err|code]; simpl; [tauto | tauto |].
  destruct (negb (code =? 200)%Z); simpl; tauto.
Qed.

(** The turn of the loop for one listing, as seen in the trace. *)
Lemma go_range_body_obs (w : Go.World) (i : nat) (db : Go.DB) (l : Go.Listing) :
  Obs.inserts (snd (Go.range_body w i db l)) = [l] /\
  (forall r, In r (Obs.requests (snd (Go.range_body w i db l))) ->
             Go.insert_error w i = None /\
             Go.price_condition (Go.Price l) = true /\
             r = Go.NewRequest (Go.alert l)) /\
  List.length (Obs.requests (snd (Go.range_body w i db l))) <= 1.
Proof.
  unfold Go.range_body, Go.insertListing.
  destruct (Go.insert_error w i) as [err|]; simpl.
  - split; [reflexivity|]. split; [contradiction | lia].
  - destruct (Go.price_condition (Go.Price l)); simpl.
    + destruct (go_sendNotification_obs (Go.alert l) (Go.http w i)) as [Hi [Hr _]].
      rewrite Hi, Hr. split; [reflexivity|].
      destruct (Go.http w i); simpl; (split; [|lia]); intros r Hin;
        try contradiction; destruct Hin as [<-|[]]; tauto.
    + split; [reflexivity|]. split; [contradiction | lia].
Qed.

(** X7.  Whatever fails, the loop offers every listing of the slice to
    the INSERT exactly once, in slice order. *)
Theorem go_range_inserts_each_once :
  forall (w : Go.World) (listings : list Go.Listing) (i : nat) (db : Go.DB),
    Obs.inserts (snd (Go.range w i db listings)) = listings.
Proof.
  intros w listings. induction listings as [|l rest IH]; intros i db; simpl; [reflexivity|].
  pose proof (go_range_body_obs w i db l) as [Hb _].
  destruct (Go.range_body w i db l) as [db1 tr1].
  specialize (IH (S i) db1).
  destruct (Go.range w (S i) db1 rest) as [db2 tr2]. simpl in *.
  rewrite inserts_app, Hb, IH. reflexivity.
Qed.

Lemma go_range_requests (w : Go.World) (listings : list Go.Listing) :
  forall (i : nat) (db : Go.DB),
    (forall r, In r (Obs.requests (snd (Go.range w i db listings))) ->
               exists j l, nth_error listings j = Some l /\
                           Go.insert_error w (i + j) = None /\
                           Go.price_condition (Go.Price l) = true /\
                           r = Go.NewRequest (Go.alert l)) /\
    List.length (Obs.requests (snd (Go.range w i db listings))) <= List.length listings.
Proof.
  induction listings as [|l rest IH]; intros i db; simpl.
  - split; [contradiction | lia].
  - pose proof (go_range_body_obs w i db l) as [_ [Hb Hn]].
    destruct (Go.range_body w i db l) as [db1 tr1].
    destruct (IH (S i) db1) as [IH1 IH2].
    destruct (Go.range w (S i) db1 rest) as [db2 tr2]. simpl in *.
    rewrite requests_app, length_app. split; [|lia].
    intros r Hin. apply in_app_or in Hin. destruct Hin as [Hin|Hin].
    + exists 0, l. replace (i + 0) with i by lia. simpl.
      destruct (Hb r Hin) as [H1 [H2 H3]]. tauto.
    + destruct (IH1 r Hin) as [j [l' [Hj H]]].
      exists (S j), l'. replace (i + S j) with (S i + j) by lia. simpl. tauto.
Qed.

(** X8.  What the loop never notifies: every request it makes is the
    notification of a listing of the slice whose INSERT returned no
    error and whose price passes the test, and there are at most as many
    requests as listings. *)
Theorem go_range_requests_only_for_priced_listings :
  forall (w : Go.World) (db : Go.DB) (listings : list Go.Listing) (r : Go.Request),
    In r (Obs.requests (snd (Go.range w 0 db listings))) ->
    (exists j l, nth_error listings j = Some l /\
                 Go.insert_error w j = None /\
                 Spec.notify_worthy (Go.Price l) /\
                 r = Go.NewRequest (Go.alert l)) /\
    List.length (Obs.requests (snd (Go.range w 0 db listings))) <= List.length listings.
Proof.
  intros w db listings r Hin.
  destruct (go_range_requests w listings 0 db) as [H1 H2].
  split; [|exact H2].
  destruct (H1 r Hin) as [j [l [Hj [He [Hp Hr]]]]].
  exists j, l. rewrite go_price_condition_iff in Hp. simpl in He. tauto.
Qed.

Lemma go_range_requests_only_for_priced_listings_witness :
  let w := Fixture.calm (Fixture.body []) 0 in
  let r := Go.NewRequest (Go.alert (Fixture.couch 0)) in
  In r (Obs.requests (snd (Go.range w 0 [] [Fixture.couch 0]))) /\
  (exists j l, nth_error [Fixture.couch 0] j = Some l /\
               Go.insert_error w j = None /\
               Spec.notify_worthy (Go.Price l) /\
               r = Go.NewRequest (Go.alert l)) /\
  List.length (Obs.requests (snd (Go.range w 0 [] [Fixture.couch 0]))) <=
  List.length [Fixture.couch 0].
Proof.
  cbv zeta.
  assert (In (Go.NewRequest (Go.alert (Fixture.couch 0)))
             (Obs.requests (snd (Go.range (Fixture.calm (Fixture.body []) 0) 0 []
                                          [Fixture.couch 0])))) as Hin
    by (left; reflexivity).
  split; [exact Hin|].
  exact (go_range_requests_only_for_priced_listings
           (Fixture.calm (Fixture.body []) 0) [] [Fixture.couch 0] _ Hin).
Defined.

(** ** The table across a pass *)

Lemma unique_same_url {row : Type} (key : row -> string) (t : Store.table row) (a b : row) :
  Store.unique key t -> In a t -> In b t -> key a = key b -> a = b.
Proof.
  unfold Store.unique. induction t as [|r t IH]; simpl; [contradiction|].
  intros Hu Ha Hb Hk. inversion Hu as [|k ks Hnotin Hnd]; subst.
  destruct Ha as [->|Ha], Hb as [->|Hb]; [reflexivity | | |auto].
  - exfalso. apply Hnotin. rewrite Hk. apply in_map. exact Hb.
  - exfalso. apply Hnotin. rewrite <- Hk. apply in_map. exact Ha.
Qed.

(** One turn of the loop leaves the rows that were there and adds at most
    the listing itself. *)
Lemma go_range_body_grows (w : Go.World) (i : nat) (db : Go.DB) (l : Go.Listing) :
  fst (Go.range_body w i db l) = db \/
  (Go.insert_error w i = None /\
   Store.present Go.ListingURL (Go.ListingURL l) db = false /\
   fst (Go.range_body w i db l) = db ++ [l]).
Proof.
  unfold Go.range_body, Go.insertListing, Store.insert_or_ignore.
  destruct (Go.insert_error w i); simpl; [left; reflexivity|].
  destruct (Store.present Go.ListingURL (Go.ListingURL l) db); simpl;
    [left; reflexivity | right; tauto].
Qed.

Lemma go_range_grows (w : Go.World) (listings : list Go.Listing) :
  forall (i : nat) (db : Go.DB),
    exists added,
      fst (Go.range w i db listings) = db ++ added /\
      (forall r, In r added -> In r listings).
Proof.
  induction listings as [|l rest IH]; intros i db; simpl.
  - exists []. split; [symmetry; apply app_nil_r | contradiction].
  - pose proof (go_range_body_grows w i db l) as Hb.
    destruct (Go.range_body w i db l) as [db1 tr1].
    destruct (IH (S i) db1) as [added [Ha Hin]].
    destruct (Go.range w (S i) db1 rest) as [db2 tr2]. simpl in *.
    destruct Hb as [->|[_ [_ ->]]].
    + exists added. split; [exact Ha | auto].
    + exists (l :: added). split; [rewrite Ha, <- app_assoc; reflexivity|].
      intros r [<-|Hr]; auto.
Qed.

(** After the turn for a listing whose INSERT returned no error, its URL
    is in the table. *)
Lemma go_range_body_present (w : Go.World) (i : nat) (db : Go.DB) (l : Go.Listing) :
  Go.insert_error w i = None ->
  Store.present Go.ListingURL (Go.ListingURL l) (fst (Go.range_body w i db l)) = true.
Proof.
  intros He. unfold Go.range_body, Go.insertListing. rewrite He. simpl.
  apply insert_present.
Qed.

Lemma go_range_present (w : Go.World) (listings : list Go.Listing) :
  forall (i : nat) (db : Go.DB),
    (forall u, Store.present Go.ListingURL u db = true ->
               Store.present Go.ListingURL u (fst (Go.range w i db listings)) = true) /\
    (forall j l, nth_error listings j = Some l ->
                 Go.insert_error w (i + j) = None ->
                 Store.present Go.ListingURL (Go.ListingURL l)
                               (fst (Go.range w i db listings)) = true).
Proof.
  intros i db. destruct (go_range_grows w listings i db) as [added [Ha _]].
  assert (forall u, Store.present Go.ListingURL u db = true ->
                    Store.present Go.ListingURL u (fst (Go.range w i db listings)) = true)
    as Hmono.
  { intros u Hu. rewrite Ha, present_app, Hu. reflexivity. }
  split; [exact Hmono|]. clear Ha Hmono added.
  revert i db. induction listings as [|x rest IH]; intros i db j l Hj He.
  - destruct j; discriminate.
  - simpl. pose proof (go_range_body_present w i db x) as Hp.
    destruct (Go.range_body w i db x) as [db1 tr1].
    destruct (go_range_grows w rest (S i) db1) as [added [Ha _]].
    specialize (IH (S i) db1).
    destruct (Go.range w (S i) db1 rest) as [db2 tr2]. simpl in *.
    destruct j as [|j]; simpl in Hj.
    + inversion Hj; subst. replace (i + 0) with i in He by lia.
      rewrite present_app, (Hp He). reflexivity.
    + apply (IH j l Hj). replace (S (i + j)) with (i + S j) by lia. exact He.
Qed.

(** X9.  Insert, then look up: after the loop over the listings, the URL
    of every listing whose INSERT returned no error is in the table, the
    rows that were there before are still there, unchanged and in place,
    and every row added is one of the listings. *)
Theorem go_range_stores_the_listings :
  forall (w : Go.World) (db : Go.DB) (listings : list Go.Listing) (j : nat) (l : Go.Listing),
    nth_error listings j = Some l ->
    Go.insert_error w j = None ->
    Store.present Go.ListingURL (Go.ListingURL l) (fst (Go.range w 0 db listings)) = true /\
    exists added,
      fst (Go.range w 0 db listings) = db ++ added /\
      (forall r, In r added -> In r listings).
Proof.
  intros w db listings j l Hj He. split.
  - apply (proj2 (go_range_present w listings 0 db) j l Hj). exact He.
  - apply go_range_grows.
Qed.

Lemma go_range_stores_the_listings_witness :
  let w := Fixture.calm (Fixture.body []) 0 in
  nth_error [Fixture.couch 0] 0 = Some (Fixture.couch 0) /\
  Go.insert_error w 0 = None /\
  Store.present Go.ListingURL (Go.ListingURL (Fixture.couch 0))
                (fst (Go.range w 0 [] [Fixture.couch 0])) = true /\
  exists added,
    fst (Go.range w 0 [] [Fixture.couch 0]) = [] ++ added /\
    (forall r, In r added -> In r [Fixture.couch 0]).
Proof.
  cbv zeta. split; [reflexivity|]. split; [reflexivity|].
  exact (go_range_stores_the_listings (Fixture.calm (Fixture.body []) 0) []
           [Fixture.couch 0] 0 (Fixture.couch 0) eq_refl eq_refl).
Defined.

Lemma go_range_known (w : Go.World) (listings : list Go.Listing) :
  forall (i : nat) (db : Go.DB),
    (forall l, In l listings -> Store.present Go.ListingURL (Go.ListingURL l) db = true) ->
    fst (Go.range w i db listings) = db.
Proof.
  induction listings as [|l rest IH]; intros i db Hall; simpl; [reflexivity|].
  pose proof (go_range_body_grows w i db l) as Hb.
  destruct (Go.range_body w i db l) as [db1 tr1]. simpl in Hb.
  assert (db1 = db) as ->.
  { destruct Hb as [H|[_ [Habs _]]]; [exact H|].
    rewrite (Hall l (or_introl eq_refl)) in Habs. discriminate. }
  specialize (IH (S i) db (fun x Hx => Hall x (or_intror Hx))).
  destruct (Go.range w (S i) db rest) as [db2 tr2]. exact IH.
Qed.

(** X10.  Repeated sightings are no-ops on the table: once a pass has
    stored the listings, with no INSERT failing, a second loop over the
    same listings leaves the table as the first left it, whatever fails
    in the second and whatever the Posted times it would write. *)
Theorem go_range_twice_is_once :
  forall (w w' : Go.World) (db : Go.DB) (listings : list Go.Listing),
    Obs.inserts_succeed w ->
    fst (Go.range w' 0 (fst (Go.range w 0 db listings)) listings) =
    fst (Go.range w 0 db listings).
Proof.
  intros w w' db listings Hok. apply go_range_known.
  intros l Hin. apply In_nth_error in Hin. destruct Hin as [j Hj].
  apply (proj2 (go_range_present w listings 0 db) j l Hj). apply Hok.
Qed.

Lemma go_range_twice_is_once_witness :
  let w := Fixture.calm (Fixture.body []) 0 in
  let w' := Fixture.locked_at 0 (Fixture.body []) 60 in
  Obs.inserts_succeed w /\
  fst (Go.range w' 0 (fst (Go.range w 0 [] [Fixture.couch 0; Fixture.couch 5]))
                [Fixture.couch 0; Fixture.couch 5]) =
  fst (Go.range w 0 [] [Fixture.couch 0; Fixture.couch 5]).
Proof.
  cbv zeta. split; [intros i; reflexivity|].
  apply (go_range_twice_is_once (Fixture.calm (Fixture.body []) 0)
           (Fixture.locked_at 0 (Fixture.body []) 60) []
           [Fixture.couch 0; Fixture.couch 5]).
  intros i. reflexivity.
Defined.

(** ** The pass and the run *)

Lemma go_delete_subset (db : Go.DB) (local : Z -> Z) (now : Z) (fault : option string)
      (r : Go.Listing) :
  In r (fst (Go.deleteOldListings db local now fault)) -> In r db.
Proof.
  unfold Go.deleteOldListings. destruct fault; cbn [fst Store.delete_where]; [tauto|].
  rewrite filter_In. tauto.
Qed.

Lemma go_delete_keeps_fresh (db : Go.DB) (local : Z -> Z) (now : Z) (fault : option string)
      (r : Go.Listing) :
  Calendar.four_digit_year (Go.Posted r + local (Go.Posted r)) ->
  Calendar.four_digit_year (now - 3600) ->
  In r db -> (now - 3600 <= Go.Posted r + local (Go.Posted r))%Z ->
  In r (fst (Go.deleteOldListings db local now fault)).
Proof.
  intros Hp Hn Hin Hf. destruct fault; [exact Hin|].
  apply go_deleteOldListings_spec. split; [exact Hin|].
  rewrite (go_older_than_an_hour_reading local now r Hp Hn). apply Z.ltb_ge. exact Hf.
Qed.

Lemma go_tick_table (db : Go.DB) (w : Go.World) :
  fst (fst (Go.tick db w)) =
  match Go.scrapeListings w with
  | Go.Listings ls =>
      fst (Go.deleteOldListings (fst (Go.range w 0 db ls))
                                (Go.local_offset w) (Go.sql_now w) (Go.delete_error w))
  | _ => db
  end.
Proof.
  destruct (Go.scrapeListings w) as [ls|err|] eqn:E.
  - rewrite (go_tick_listings db w ls E). reflexivity.
  - unfold Go.tick. rewrite E. reflexivity.
  - unfold Go.tick. rewrite E. reflexivity.
Qed.

(** X11.  With the local zone at or east of UTC no pass loses a row that
    is less than an hour old: whatever the page shows and whatever
    fails, a row whose Posted is not more than an hour before the 'now'
    of the pass is still in the table after it.  (The years are 0000 to
    9999.) *)
Theorem go_tick_keeps_fresh_rows :
  forall (db : Go.DB) (w : Go.World) (r : Go.Listing),
    Calendar.four_digit_year (Go.Posted r + Go.local_offset w (Go.Posted r)) ->
    Calendar.four_digit_year (Go.sql_now w - 3600) ->
    (0 <= Go.local_offset w (Go.Posted r))%Z ->
    In r db ->
    (Go.sql_now w - 3600 <= Go.Posted r)%Z ->
    In r (fst (fst (Go.tick db w))).
Proof.
  intros db w r Hp Hn Hz Hin Hf. rewrite go_tick_table.
  destruct (Go.scrapeListings w) as [ls|err|]; [|exact Hin|exact Hin].
  apply go_delete_keeps_fresh; [exact Hp | exact Hn | | lia].
  destruct (go_range_grows w ls 0 db) as [added [Ha _]].
  rewrite Ha. apply in_or_app. left. exact Hin.
Qed.

Lemma go_tick_keeps_fresh_rows_witness :
  let now := 1727956800%Z in
  let r := Fixture.couch (now - 3600) in
  let w := Fixture.zoned 32400 (Fixture.body [Fixture.couch_item]) now in
  Calendar.four_digit_year (Go.Posted r + Go.local_offset w (Go.Posted r)) /\
  Calendar.four_digit_year (Go.sql_now w - 3600) /\
  (0 <= Go.local_offset w (Go.Posted r))%Z /\
  In r [r] /\
  (Go.sql_now w - 3600 <= Go.Posted r)%Z /\
  In r (fst (fst (Go.tick [r] w))).
Proof.
  cbv zeta.
  assert (Calendar.four_digit_year
            (Go.Posted (Fixture.couch (1727956800 - 3600))
             + Go.local_offset (Fixture.zoned 32400 (Fixture.body [Fixture.couch_item]) 1727956800)
                               (Go.Posted (Fixture.couch (1727956800 - 3600))))) as Hp
    by (vm_compute; split; discriminate).
  assert (Calendar.four_digit_year
            (Go.sql_now (Fixture.zoned 32400 (Fixture.body [Fixture.couch_item]) 1727956800)
             - 3600)) as Hn
    by (vm_compute; split; discriminate).
  assert (0 <= Go.local_offset (Fixture.zoned 32400 (Fixture.body [Fixture.couch_item]) 1727956800)
                               (Go.Posted (Fixture.couch (1727956800 - 3600))))%Z as Hz
    by (vm_compute; discriminate).
  assert (In (Fixture.couch (1727956800 - 3600)) [Fixture.couch (1727956800 - 3600)]) as Hin
    by (left; reflexivity).
  assert (Go.sql_now (Fixture.zoned 32400 (Fixture.body [Fixture.couch_item]) 1727956800) - 3600
          <= Go.Posted (Fixture.couch (1727956800 - 3600)))%Z as Hf
    by (vm_compute; discriminate).
  split; [exact Hp|]. split; [exact Hn|]. split; [exact Hz|]. split; [exact Hin|].
  split; [exact Hf|].
  exact (go_tick_keeps_fresh_rows [Fixture.couch (1727956800 - 3600)]
           (Fixture.zoned 32400 (Fixture.body [Fixture.couch_item]) 1727956800)
           (Fixture.couch (1727956800 - 3600)) Hp Hn Hz Hin Hf).
Defined.

(** X12.  A pass invents no row and rewrites none: every row in the table
    after a pass was in it before, unchanged, or is one of the listings
    the scrape of this pass returned. *)
Theorem go_tick_rows_come_from_table_or_page :
  forall (db : Go.DB) (w : Go.World) (r : Go.Listing),
    In r (fst (fst (Go.tick db w))) ->
    In r db \/
    exists listings, Go.scrapeListings w = Go.Listings listings /\ In r listings.
Proof.
  intros db w r. rewrite go_tick_table.
  destruct (Go.scrapeListings w) as [ls|err|]; [|tauto|tauto].
  intros Hin. apply go_delete_subset in Hin.
  destruct (go_range_grows w ls 0 db) as [added [Ha Hsub]].
  rewrite Ha in Hin. apply in_app_or in Hin. destruct Hin as [Hin|Hin]; [tauto|].
  right. exists ls. split; [reflexivity | auto].
Qed.

Lemma go_tick_rows_come_from_table_or_page_witness :
  let w := Fixture.calm (Fixture.body [Fixture.couch_item]) 60 in
  In (Fixture.couch 60) (fst (fst (Go.tick [] w))) /\
  (In (Fixture.couch 60) [] \/
   exists listings, Go.scrapeListings w = Go.Listings listings /\ In (Fixture.couch 60) listings).
Proof.
  cbv zeta.
  assert (In (Fixture.couch 60)
             (fst (fst (Go.tick [] (Fixture.calm (Fixture.body [Fixture.couch_item]) 60)))))
    as Hin by (left; reflexivity).
  split; [exact Hin|].
  exact (go_tick_rows_come_from_table_or_page []
           (Fixture.calm (Fixture.body [Fixture.couch_item]) 60) (Fixture.couch 60) Hin).
Defined.

(** X13.  A listing that stays on the page is not refreshed: with the
    local zone at or west of UTC, when its URL is already stored with a
    Posted more than an hour old, the INSERT of the new sighting is
    ignored, the DELETE of the same pass removes the old row, and the URL
    is not in the table after the pass although the listing was just
    seen.  (The years are 0000 to 9999.) *)
Theorem go_tick_drops_stale_listing_still_on_page :
  forall (db : Go.DB) (w : Go.World) (listings : list Go.Listing) (old seen : Go.Listing),
    Calendar.four_digit_year (Go.Posted old + Go.local_offset w (Go.Posted old)) ->
    Calendar.four_digit_year (Go.sql_now w - 3600) ->
    (Go.local_offset w (Go.Posted old) <= 0)%Z ->
    Store.unique Go.ListingURL db ->
    In old db ->
    (Go.Posted old < Go.sql_now w - 3600)%Z ->
    Go.scrapeListings w = Go.Listings listings ->
    In seen listings ->
    Go.ListingURL seen = Go.ListingURL old ->
    Go.delete_error w = None ->
    Store.present Go.ListingURL (Go.ListingURL seen) (fst (fst (Go.tick db w))) = false.
Proof.
  intros db w listings old seen Hy Hn Hz Hu Hold Hage Hs Hseen Hurl Hd.
  rewrite go_tick_table, Hs, Hd.
  destruct (Store.present Go.ListingURL (Go.ListingURL seen) _) eqn:Hp; [|reflexivity].
  exfalso. apply present_iff in Hp. apply in_map_iff in Hp.
  destruct Hp as [r [Hk Hin]].
  apply go_deleteOldListings_spec in Hin. destruct Hin as [Hin Hfresh].
  pose proof (go_range_unique w listings 0 db Hu) as Hu1.
  destruct (go_range_grows w listings 0 db) as [added [Ha _]].
  assert (In old (fst (Go.range w 0 db listings))) as Hold1
    by (rewrite Ha; apply in_or_app; left; exact Hold).
  assert (r = old) as -> by (apply (unique_same_url Go.ListingURL _ r old Hu1 Hin Hold1); congruence).
  rewrite (go_older_than_an_hour_reading _ _ old Hy Hn) in Hfresh.
  apply Z.ltb_ge in Hfresh. lia.
Qed.

Lemma go_tick_drops_stale_listing_still_on_page_witness :
  let now := 1727956800%Z in
  let old := Fixture.couch (now - 7200) in
  let seen := Fixture.couch now in
  let db := [old] in
  let w := Fixture.zoned (-14400) (Fixture.body [Fixture.couch_item]) now in
  Calendar.four_digit_year (Go.Posted old + Go.local_offset w (Go.Posted old)) /\
  Calendar.four_digit_year (Go.sql_now w - 3600) /\
  (Go.local_offset w (Go.Posted old) <= 0)%Z /\
  Store.unique Go.ListingURL db /\
  In old db /\
  (Go.Posted old < Go.sql_now w - 3600)%Z /\
  Go.scrapeListings w = Go.Listings [seen] /\
  In seen [seen] /\
  Go.ListingURL seen = Go.ListingURL old /\
  Go.delete_error w = None /\
  Store.present Go.ListingURL (Go.ListingURL seen) (fst (fst (Go.tick db w))) = false.
Proof.
  cbv zeta.
  assert (Calendar.four_digit_year
            (Go.Posted (Fixture.couch (1727956800 - 7200))
             + Go.local_offset
                 (Fixture.zoned (-14400) (Fixture.body [Fixture.couch_item]) 1727956800)
                 (Go.Posted (Fixture.couch (1727956800 - 7200))))) as Hy
    by (vm_compute; split; discriminate).
  assert (Calendar.four_digit_year
            (Go.sql_now (Fixture.zoned (-14400) (Fixture.body [Fixture.couch_item]) 1727956800)
             - 3600)) as Hn
    by (vm_compute; split; discriminate).
  assert (Go.local_offset
            (Fixture.zoned (-14400) (Fixture.body [Fixture.couch_item]) 1727956800)
            (Go.Posted (Fixture.couch (1727956800 - 7200))) <= 0)%Z as Hz
    by (vm_compute; discriminate).
  assert (Store.unique Go.ListingURL [Fixture.couch (1727956800 - 7200)]) as Hu
    by (constructor; [intros [] | constructor]).
  assert (In (Fixture.couch (1727956800 - 7200)) [Fixture.couch (1727956800 - 7200)]) as Hold
    by (left; reflexivity).
  assert (Go.Posted (Fixture.couch (1727956800 - 7200))
          < Go.sql_now (Fixture.zoned (-14400) (Fixture.body [Fixture.couch_item]) 1727956800)
            - 3600)%Z
    as Hage by reflexivity.
  assert (In (Fixture.couch 1727956800) [Fixture.couch 1727956800]) as Hseen
    by (left; reflexivity).
  split; [exact Hy|]. split; [exact Hn|]. split; [exact Hz|].
  split; [exact Hu|]. split; [exact Hold|]. split; [exact Hage|].
  split; [reflexivity|]. split; [exact Hseen|]. split; [reflexivity|].
  split; [reflexivity|].
  exact (go_tick_drops_stale_listing_still_on_page [Fixture.couch (1727956800 - 7200)]
           (Fixture.zoned (-14400) (Fixture.body [Fixture.couch_item]) 1727956800)
           [Fixture.couch 1727956800] (Fixture.couch (1727956800 - 7200))
           (Fixture.couch 1727956800)
           Hy Hn Hz Hu Hold Hage eq_refl Hseen eq_refl eq_refl).
Defined.

Lemma filter_filter_implied {A : Type} (f g : A -> bool) (l : list A) :
  (forall x, g x = true -> f x = true) ->
  filter g (filter f l) = filter g l.
Proof.
  intros H. induction l as [|x l IH]; simpl; [reflexivity|].
  destruct (f x) eqn:Ef; simpl.
  - rewrite IH. reflexivity.
  - destruct (g x) eqn:Eg; [rewrite (H x Eg) in Ef; discriminate | exact IH].
Qed.

Lemma string_compare_lt_trans (a b c : string) :
  String.compare a b = Lt -> String.compare b c = Lt -> String.compare a c = Lt.
Proof.
  revert b c. induction a as [|x a IH]; intros [|y b] [|z c]; cbn [String.compare];
    try discriminate; try reflexivity.
  unfold Ascii.compare.
  destruct (N.compare_spec (N_of_ascii x) (N_of_ascii y)) as [E1|L1|G1]; try discriminate;
    destruct (N.compare_spec (N_of_ascii y) (N_of_ascii z)) as [E2|L2|G2]; try discriminate;
    intros H1 H2.
  - rewrite E1, E2, N.compare_refl. apply (IH b c H1 H2).
  - rewrite (proj2 (N.compare_lt_iff _ _)) by lia. reflexivity.
  - rewrite (proj2 (N.compare_lt_iff _ _)) by lia. reflexivity.
  - rewrite (proj2 (N.compare_lt_iff _ _)) by lia. reflexivity.
Qed.

(** A later cut-off is above everything an earlier one is above. *)
Lemma posted_before_cutoff_later (posted : string) (now later : Z) :
  Calendar.four_digit_year (now - 3600) -> Calendar.four_digit_year (later - 3600) ->
  (now <= later)%Z ->
  Sqlite.posted_before_cutoff posted now = true ->
  Sqlite.posted_before_cutoff posted later = true.
Proof.
  intros Hn Hl Hle.
  unfold Sqlite.posted_before_cutoff, Sqlite.less_than_text, Sqlite.datetime_now_minus_1_hour.
  destruct (Sqlite.well_formed_number posted); [reflexivity|].
  unfold Sqlite.text_lt.
  destruct (String.compare posted (Sqlite.civil_text (now - 3600))) eqn:E1; try discriminate.
  intros _.
  pose proof (civil_text_compare (now - 3600) (later - 3600) "" "" Hn Hl) as Hc.
  rewrite !append_empty_r in Hc.
  destruct (Z.compare_spec (now - 3600) (later - 3600)) as [E|L|G]; [| |lia].
  - rewrite <- E, E1. reflexivity.
  - rewrite (string_compare_lt_trans _ _ _ E1 Hc). reflexivity.
Qed.

(** X14.  Expiries compose: an expiry followed by a later one leaves what
    the later one alone would leave, whatever the rows hold and whatever
    the zone; in particular running the same expiry twice removes nothing
    more.  (The cut-offs are in the years 0000 to 9999.) *)
Theorem go_deleteOldListings_later_subsumes_earlier :
  forall (db : Go.DB) (local : Z -> Z) (now later : Z),
    Calendar.four_digit_year (now - 3600) ->
    Calendar.four_digit_year (later - 3600) ->
    (now <= later)%Z ->
    fst (Go.deleteOldListings (fst (Go.deleteOldListings db local now None)) local later None) =
    fst (Go.deleteOldListings db local later None).
Proof.
  intros db local now later Hn Hl Hle. unfold Go.deleteOldListings.
  cbn [fst Store.delete_where].
  apply filter_filter_implied. intros r.
  rewrite !negb_true_iff. unfold Go.older_than_an_hour.
  intros Hlater.
  destruct (Sqlite.posted_before_cutoff (Go.posted_text local (Go.Posted r)) now) eqn:E;
    [|reflexivity].
  rewrite (posted_before_cutoff_later _ now later Hn Hl Hle E) in Hlater. discriminate.
Qed.

Lemma go_deleteOldListings_later_subsumes_earlier_witness :
  let now := 1727956800%Z in
  let later := 1727960400%Z in
  let db := [Fixture.couch (now - 7200); Fixture.couch (now - 1800); Fixture.couch now] in
  let local := fun _ : Z => (-3600)%Z in
  Calendar.four_digit_year (now - 3600) /\
  Calendar.four_digit_year (later - 3600) /\
  (now <= later)%Z /\
  fst (Go.deleteOldListings (fst (Go.deleteOldListings db local now None)) local later None) =
  fst (Go.deleteOldListings db local later None).
Proof.
  cbv zeta.
  assert (Calendar.four_digit_year (1727956800 - 3600)) as Hn
    by (vm_compute; split; discriminate).
  assert (Calendar.four_digit_year (1727960400 - 3600)) as Hl
    by (vm_compute; split; discriminate).
  assert (1727956800 <= 1727960400)%Z as Hle by (vm_compute; discriminate).
  split; [exact Hn|]. split; [exact Hl|]. split; [exact Hle|].
  exact (go_deleteOldListings_later_subsumes_earlier
           [Fixture.couch (1727956800 - 7200); Fixture.couch (1727956800 - 1800);
            Fixture.couch 1727956800]
           (fun _ : Z => (-3600)%Z) 1727956800 1727960400 Hn Hl Hle).
Defined.

Lemma go_tick_requests (db : Go.DB) (w : Go.World) :
  Obs.requests (snd (fst (Go.tick db w))) =
  match Go.scrapeListings w with
  | Go.Listings ls => Obs.requests (snd (Go.range w 0 db ls))
  | _ => []
  end.
Proof.
  destruct (Go.scrapeListings w) as [ls|err|] eqn:E.
  - rewrite (go_tick_listings db w ls E). cbn [fst snd].
    rewrite requests_app. simpl.
    destruct (Go.delete_error w); simpl; apply app_nil_r.
  - unfold Go.tick. rewrite E. reflexivity.
  - unfold Go.tick. rewrite E. reflexivity.
Qed.

(** X16.  Where a run posts: every request made in a run of the loop,
    however many ticks and whatever fails, is a POST to
    https://ntfy.sh/charlottecraig with the headers Title and Priority:
    high, and its body is the alert text of an extracted listing whose
    price passes the test. *)
Theorem go_loop_posts_only_alerts_to_ntfy :
  forall (ticks : list Go.World) (db : Go.DB) (r : Go.Request),
    In r (Obs.requests (snd (fst (Go.loop db ticks)))) ->
    Go.Method r = "POST"%string /\
    Go.URL r = "https://ntfy.sh/charlottecraig"%string /\
    Go.Header r = [("Title", "Craigslist Alert"); ("Priority", "high")]%string /\
    exists w l listings,
      In w ticks /\ Go.scrapeListings w = Go.Listings listings /\ In l listings /\
      Spec.notify_worthy (Go.Price l) /\ Go.Body r = Go.alert l.
Proof.
  intros ticks. induction ticks as [|w later IH]; intros db r; simpl; [contradiction|].
  pose proof (go_tick_requests db w) as Ht.
  destruct (Go.tick db w) as [[db1 tr1] st]. cbn [fst snd] in Ht.
  assert (In r (Obs.requests tr1) ->
          Go.Method r = "POST"%string /\
          Go.URL r = "https://ntfy.sh/charlottecraig"%string /\
          Go.Header r = [("Title", "Craigslist Alert"); ("Priority", "high")]%string /\
          exists w0 l listings,
            (w = w0 \/ In w0 later) /\ Go.scrapeListings w0 = Go.Listings listings /\
            In l listings /\ Spec.notify_worthy (Go.Price l) /\ Go.Body r = Go.alert l) as Hone.
  { rewrite Ht. destruct (Go.scrapeListings w) as [ls|err|] eqn:E; [|contradiction|contradiction].
    intros Hin. destruct (proj1 (go_range_requests w ls 0 db) r Hin) as [j [l [Hj [_ [Hp ->]]]]].
    repeat (split; [reflexivity|]).
    exists w, l, ls. rewrite go_price_condition_iff in Hp.
    repeat split; auto. eapply nth_error_In; eassumption. }
  destruct st.
  - specialize (IH db1 r).
    destruct (Go.loop db1 later) as [[db2 tr2] st2]. cbn [fst snd] in *.
    rewrite requests_app. intros Hin. apply in_app_or in Hin.
    destruct Hin as [Hin|Hin]; [exact (Hone Hin)|].
    destruct (IH Hin) as [H1 [H2 [H3 [w0 [l [ls [Hw H]]]]]]].
    repeat (split; [assumption|]). exists w0, l, ls. tauto.
  - exact Hone.
Qed.

Lemma go_loop_posts_only_alerts_to_ntfy_witness :
  let ticks := [Fixture.offline; Fixture.calm (Fixture.body [Fixture.couch_item]) 60] in
  let r := Go.NewRequest (Go.alert (Fixture.couch 60)) in
  In r (Obs.requests (snd (fst (Go.loop [] ticks)))) /\
  Go.Method r = "POST"%string /\
  Go.URL r = "https://ntfy.sh/charlottecraig"%string /\
  Go.Header r = [("Title", "Craigslist Alert"); ("Priority", "high")]%string /\
  exists w l listings,
    In w ticks /\ Go.scrapeListings w = Go.Listings listings /\ In l listings /\
    Spec.notify_worthy (Go.Price l) /\ Go.Body r = Go.alert l.
Proof.
  cbv zeta.
  assert (In (Go.NewRequest (Go.alert (Fixture.couch 60)))
             (Obs.requests
                (snd (fst (Go.loop []
                             [Fixture.offline;
                              Fixture.calm (Fixture.body [Fixture.couch_item]) 60])))))
    as Hin by (left; reflexivity).
  split; [exact Hin|].
  exact (go_loop_posts_only_alerts_to_ntfy
           [Fixture.offline; Fixture.calm (Fixture.body [Fixture.couch_item]) 60] []
           (Go.NewRequest (Go.alert (Fixture.couch 60))) Hin).
Defined.

(** ** main.js: the table and the notifications *)

Lemma js_sendNotification_one_fetch (l : Js.listing) (o : Js.HttpOutcome) :
  List.length (filter Spec.is_fetch (Js.sendNotification l o)) = 1.
Proof. unfold Js.sendNotification. destruct o; reflexivity. Qed.

Lemma js_markAsNotified_new (db : Js.DB) (l : Js.listing) (fault : option string) :
  Store.present Js.url_of (Js.listing_url l) db = false ->
  exists flag,
    fst (Js.markAsNotified (db ++ [{| Js.fields := l; Js.notified := false |}])
                           (Js.listing_url l) fault)
    = db ++ [{| Js.fields := l; Js.notified := flag |}] /\
    filter Spec.is_fetch
           (snd (Js.markAsNotified (db ++ [{| Js.fields := l; Js.notified := false |}])
                                   (Js.listing_url l) fault)) = [].
Proof.
  intros Hp. unfold Js.markAsNotified. destruct fault as [err|].
  - exists false. split; reflexivity.
  - exists true. cbn [fst snd Store.update_where]. split; [|reflexivity].
    rewrite map_app, (update_absent _ _ Hp). cbn [map].
    unfold Store.same_url, Js.url_of. cbn [Js.fields].
    rewrite String.eqb_refl. reflexivity.
Qed.

(** What one insertListing, with its callback, does to the table and how
    many requests it makes. *)
Lemma js_insertListing_appends (w : Js.World) (i : nat) (db : Js.DB) (l : Js.listing) :
  exists added,
    fst (Js.insertListing w i db l) = db ++ added /\
    List.length (filter Spec.is_fetch (snd (Js.insertListing w i db l))) <= List.length added /\
    (added = [] \/
     Store.present Js.url_of (Js.listing_url l) db = false /\
     exists flag, added = [{| Js.fields := l; Js.notified := flag |}] /\
                  (flag = true -> Js.price_condition (Js.price l) = true)) /\
    (Store.present Js.url_of (Js.listing_url l) db = true ->
     filter Spec.is_fetch (snd (Js.insertListing w i db l)) = []).
Proof.
  unfold Js.insertListing.
  destruct (Js.insert_error w i) as [err|].
  - exists []. cbn [fst snd]. rewrite app_nil_r.
    split; [reflexivity|]. split; [simpl; lia|]. split; [left; reflexivity | reflexivity].
  - destruct (Store.present Js.url_of (Js.listing_url l) db) eqn:Hp.
    + rewrite (insert_again Js.url_of db {| Js.fields := l; Js.notified := false |} Hp).
      exists []. cbn. rewrite app_nil_r.
      split; [reflexivity|]. split; [lia|]. split; [left; reflexivity | reflexivity].
    + rewrite (insert_fresh Js.url_of db {| Js.fields := l; Js.notified := false |} Hp).
      cbv beta iota zeta. change (0 <? 1)%nat with true. cbv iota.
      destruct (Js.price_condition (Js.price l)) eqn:Hc.
      * destruct (js_markAsNotified_new db l (Js.update_error w i) Hp) as [flag [Hdb Hnf]].
        destruct (Js.markAsNotified _ (Js.listing_url l) (Js.update_error w i)) as [db2 tr].
        cbn [fst snd] in *.
        exists [{| Js.fields := l; Js.notified := flag |}].
        split; [exact Hdb|]. split.
        -- change (Js.RunInsert l :: Js.sendNotification l (Js.http w i) ++ tr)
             with ([Js.RunInsert l] ++ Js.sendNotification l (Js.http w i) ++ tr).
           rewrite !filter_app, !length_app, js_sendNotification_one_fetch, Hnf. simpl. lia.
        -- split; [|discriminate]. right. split; [reflexivity|].
           exists flag. split; [reflexivity | intros _; reflexivity].
      * exists [{| Js.fields := l; Js.notified := false |}]. cbn [fst snd].
        split; [reflexivity|]. split; [simpl; lia|].
        split; [|discriminate]. right. split; [reflexivity|].
        exists false. split; [reflexivity | discriminate].
Qed.

Lemma js_insertAll_appends (w : Js.World) (listings : list Js.listing) :
  forall (i : nat) (db : Js.DB),
    exists added,
      fst (Js.insertAll w i db listings) = db ++ added /\
      List.length (filter Spec.is_fetch (snd (Js.insertAll w i db listings)))
      <= List.length added /\
      Forall (fun r => In (Js.fields r) listings /\
                       (Js.notified r = true ->
                        Js.price_condition (Js.price (Js.fields r)) = true)) added.
Proof.
  induction listings as [|l rest IH]; intros i db; simpl.
  - exists []. simpl. rewrite app_nil_r. repeat split; auto.
  - destruct (js_insertListing_appends w i db l) as [a1 [H1 [Hn1 [Hs1 _]]]].
    destruct (Js.insertListing w i db l) as [db1 tr1]. cbn [fst snd] in *.
    destruct (IH (S i) db1) as [a2 [H2 [Hn2 Hf2]]].
    destruct (Js.insertAll w (S i) db1 rest) as [db2 tr2]. cbn [fst snd] in *.
    exists (a1 ++ a2). split; [rewrite H2, H1, app_assoc; reflexivity|].
    split; [rewrite filter_app, !length_app; lia|].
    apply Forall_app. split.
    + destruct Hs1 as [->|[_ [flag [-> Hflag]]]]; [constructor|].
      constructor; [|constructor]. simpl. split; [left; reflexivity | exact Hflag].
    + eapply Forall_impl; [|exact Hf2]. intros r [Hr1 Hr2]. simpl. tauto.
Qed.

(** X17.  main.js only ever appends while it processes the listings of a
    page: the rows that were in the table stay as they are and in place,
    every added row holds the fields of one of the listings, and the
    pass makes at most one request per row it creates. *)
Theorem js_insertAll_appends_and_notifies_created_rows_only :
  forall (w : Js.World) (db : Js.DB) (listings : list Js.listing),
    exists added,
      fst (Js.insertAll w 0 db listings) = db ++ added /\
      Forall (fun r => In (Js.fields r) listings) added /\
      List.length (filter Spec.is_fetch (snd (Js.insertAll w 0 db listings)))
      <= List.length added.
Proof.
  intros w db listings.
  destruct (js_insertAll_appends w listings 0 db) as [added [H1 [H2 H3]]].
  exists added. split; [exact H1|]. split; [|exact H2].
  eapply Forall_impl; [|exact H3]. intros r [H _]. exact H.
Qed.

Lemma js_insertAll_known (w : Js.World) (listings : list Js.listing) :
  forall (i : nat) (db : Js.DB),
    (forall l, In l listings -> Store.present Js.url_of (Js.listing_url l) db = true) ->
    fst (Js.insertAll w i db listings) = db /\
    filter Spec.is_fetch (snd (Js.insertAll w i db listings)) = [].
Proof.
  induction listings as [|l rest IH]; intros i db Hall; simpl; [tauto|].
  destruct (js_insertListing_appends w i db l) as [a1 [H1 [_ [Hs1 Hk]]]].
  specialize (Hk (Hall l (or_introl eq_refl))).
  assert (a1 = []) as ->.
  { destruct Hs1 as [H|[Habs _]]; [exact H|].
    rewrite (Hall l (or_introl eq_refl)) in Habs. discriminate. }
  rewrite app_nil_r in H1.
  destruct (Js.insertListing w i db l) as [db1 tr1]. cbn [fst snd] in *. subst db1.
  destruct (IH (S i) db (fun x Hx => Hall x (or_intror Hx))) as [IH1 IH2].
  destruct (Js.insertAll w (S i) db rest) as [db2 tr2]. cbn [fst snd] in *.
  split; [exact IH1|]. rewrite filter_app, Hk, IH2. reflexivity.
Qed.

(** X18.  main.js notifies a listing once: a pass over listings whose
    URLs are all in the table makes no request and leaves the table as
    it is, whatever their prices. *)
Theorem js_known_listings_are_not_notified_again :
  forall (w : Js.World) (db : Js.DB) (listings : list Js.listing),
    (forall l, In l listings -> Store.present Js.url_of (Js.listing_url l) db = true) ->
    fst (Js.insertAll w 0 db listings) = db /\
    filter Spec.is_fetch (snd (Js.insertAll w 0 db listings)) = [].
Proof. intros w db listings H. apply js_insertAll_known. exact H. Qed.

Lemma js_known_listings_are_not_notified_again_witness :
  let lamp := {| Js.title := "Lamp"; Js.price := ""; Js.city := "Concord";
                 Js.posted := "1h ago"; Js.listing_url := "/lamp" |} in
  let db := [{| Js.fields := lamp; Js.notified := true |}] in
  let w := Fixture.calm_js (Fixture.body []) in
  (forall l, In l [lamp] -> Store.present Js.url_of (Js.listing_url l) db = true) /\
  fst (Js.insertAll w 0 db [lamp]) = db /\
  filter Spec.is_fetch (snd (Js.insertAll w 0 db [lamp])) = [].
Proof.
  cbv zeta.
  assert (forall l,
             In l [{| Js.title := "Lamp"; Js.price := ""; Js.city := "Concord";
                      Js.posted := "1h ago"; Js.listing_url := "/lamp" |}] ->
             Store.present Js.url_of (Js.listing_url l)
               [{| Js.fields := {| Js.title := "Lamp"; Js.price := ""; Js.city := "Concord";
                                   Js.posted := "1h ago"; Js.listing_url := "/lamp" |};
                   Js.notified := true |}] = true) as Hall
    by (intros l [<-|[]]; reflexivity).
  split; [exact Hall|].
  exact (js_known_listings_are_not_notified_again (Fixture.calm_js (Fixture.body [])) _ _ Hall).
Defined.



Lemma unique_rows_le {row : Type} (key : row -> string) (t : Store.table row) (u : string) :
  Store.unique key t -> Store.rows_with key u t <= 1.
Proof.
  intros Hu. destruct (Store.present key u t) eqn:Hp.
  - rewrite (unique_rows_with key u t Hu Hp). lia.
  - rewrite (proj1 (absent_rows_with key u t Hp)). lia.
Qed.

Lemma js_insertAll_unique (w : Js.World) (listings : list Js.listing) :
  forall (i : nat) (db : Js.DB),
    Store.unique Js.url_of db -> Store.unique Js.url_of (fst (Js.insertAll w i db listings)).
Proof.
  induction listings as [|l rest IH]; intros i db Hu; simpl; [exact Hu|].
  pose proof (js_insertListing_unique w i db l Hu) as H1.
  destruct (Js.insertListing w i db l) as [db1 tr1].
  specialize (IH (S i) db1 H1).
  destruct (Js.insertAll w (S i) db1 rest) as [db2 tr2]. exact IH.
Qed.

(** X20.  No URL is ever stored twice by craigslist_bot.go: from a table
    with at most one row per URL, after any run of the loop, whatever
    the pages and whatever fails, every URL has at most one row. *)
Theorem go_loop_stores_each_url_once :
  forall (ticks : list Go.World) (db : Go.DB) (u : string),
    Store.unique Go.ListingURL db ->
    Store.rows_with Go.ListingURL u (fst (fst (Go.loop db ticks))) <= 1.
Proof.
  intros ticks db u Hu. apply unique_rows_le. apply go_loop_unique. exact Hu.
Qed.

Lemma go_loop_stores_each_url_once_witness :
  let ticks := [Fixture.calm (Fixture.body [Fixture.couch_item; Fixture.couch_item]) 0;
                Fixture.calm (Fixture.body [Fixture.couch_item]) 60] in
  Store.unique Go.ListingURL [] /\
  Store.rows_with Go.ListingURL "/couch" (fst (fst (Go.loop [] ticks))) <= 1.
Proof.
  cbv zeta. split; [constructor|].
  exact (go_loop_stores_each_url_once
           [Fixture.calm (Fixture.body [Fixture.couch_item; Fixture.couch_item]) 0;
            Fixture.calm (Fixture.body [Fixture.couch_item]) 60] [] "/couch" (NoDup_nil _)).
Defined.

(** X21.  No URL is ever stored twice by main.js: from a table with at
    most one row per URL, after the function run on an interval
    (inserts, marks and expiry), every URL has at most one row. *)
Theorem js_interval_stores_each_url_once :
  forall (w : Js.World) (db db' : Js.DB) (tr : list Js.event) (u : string),
    Store.unique Js.url_of db ->
    Js.interval w db = inr (db', tr) ->
    Store.rows_with Js.url_of u db' <= 1.
Proof.
  intros w db db' tr u Hu Hrun. apply unique_rows_le.
  unfold Js.interval, Js.processListings in Hrun.
  destruct (Js.scrapeListings w) as [err|listings]; [discriminate|].
  pose proof (js_insertAll_unique w listings 0 db Hu) as H1.
  destruct (Js.insertAll w 0 db listings) as [db1 tr1]. cbn [fst] in H1.
  unfold Js.deleteOldListings in Hrun.
  destruct (Js.delete_error w); inversion Hrun; subst; [exact H1|].
  apply (delete_unique Js.url_of _ db1 H1).
Qed.

Lemma js_interval_stores_each_url_once_witness :
  let w := Fixture.calm_js (Fixture.body [Fixture.couch_item; Fixture.couch_item]) in
  Store.unique Js.url_of [] /\
  Js.interval w [] = inr (fst (Js.insertAll w 0 [] (Js.evaluate (Fixture.body [Fixture.couch_item; Fixture.couch_item]))),
                          snd (Js.insertAll w 0 [] (Js.evaluate (Fixture.body [Fixture.couch_item; Fixture.couch_item]))) ++ [Js.RunDelete]) /\
  Store.rows_with Js.url_of "/couch"
    (fst (Js.insertAll w 0 [] (Js.evaluate (Fixture.body [Fixture.couch_item; Fixture.couch_item])))) <= 1.
Proof.
  cbv zeta. split; [constructor|]. split; [reflexivity|].
  exact (js_interval_stores_each_url_once
           (Fixture.calm_js (Fixture.body [Fixture.couch_item; Fixture.couch_item]))
           [] _ _ "/couch" (NoDup_nil _) eq_refl).
Defined.

(** ** The two extractions side by side *)

Lemma contains_iff (sub s : string) :
  Text.contains sub s = true <-> Text.occurs_in sub s.
Proof.
  unfold Text.occurs_in. split.
  - induction s as [|c s IH].
    + cbn [Text.contains]. rewrite orb_false_r, prefix_iff.
      intros [rest H]. exists ""%string, rest. exact H.
    + cbn [Text.contains]. intros H. apply orb_true_iff in H. destruct H as [H|H].
      * apply prefix_iff in H. destruct H as [rest H]. exists ""%string, rest. exact H.
      * destruct (IH H) as [before [after E]].
        exists (String c before), after. rewrite E. reflexivity.
  - intros [before [after E]]. revert s E.
    induction before as [|c before IH]; intros s E.
    + assert (String.prefix sub s = true) as Hp by (apply prefix_iff; exists after; exact E).
      destruct s; cbn [Text.contains]; rewrite Hp; reflexivity.
    + subst s. cbn [String.append Text.contains].
      rewrite (IH _ eq_refl). apply orb_true_r.
Qed.

Lemma contains_suffix (sub before s : string) :
  Text.contains sub (before ++ s) = false -> Text.contains sub s = false.
Proof.
  intros H. destruct (Text.contains sub s) eqn:E; [|reflexivity].
  apply contains_iff in E. destruct E as [b [a E]].
  assert (Text.contains sub (before ++ s) = true) as Ht.
  { apply contains_iff. exists (before ++ b)%string, a. rewrite E. symmetry. apply append_assoc. }
  rewrite Ht in H. discriminate.
Qed.

Lemma contains_rev (sub s : string) :
  Text.contains sub s = false -> Text.contains (Text.rev sub) (Text.rev s) = false.
Proof.
  intros H. destruct (Text.contains (Text.rev sub) (Text.rev s)) eqn:E; [|reflexivity].
  apply contains_iff in E. destruct E as [b [a E]].
  assert (Text.contains sub s = true) as Ht.
  { apply contains_iff. exists (Text.rev a), (Text.rev b).
    rewrite <- (rev_involutive s), E, !rev_app, rev_involutive. apply append_assoc. }
  rewrite Ht in H. discriminate.
Qed.

Lemma find_app_last {A : Type} (f : A -> bool) (l : list A) (x : A) :
  f x = false -> find f (l ++ [x]) = find f l.
Proof.
  intros H. induction l as [|y l IH]; cbn [app find].
  - rewrite H. reflexivity.
  - destruct (f y); [reflexivity | exact IH].
Qed.

Lemma contains_prefix_false (sub s : string) :
  Text.contains sub s = false -> String.prefix sub s = false.
Proof.
  destruct s; cbn [Text.contains]; intros H; apply orb_false_iff in H; tauto.
Qed.

(** A character that does not occur makes no difference to what is
    stripped. *)
Lemma strip_without (ws : list string) (a b : string) (s : string) :
  Text.contains a s = false -> Text.contains b s = false ->
  forall skip, Text.strip (ws ++ [a]) skip s = Text.strip (ws ++ [b]) skip s.
Proof.
  induction s as [|c s IH]; intros Ha Hb skip; cbn [Text.strip]; [reflexivity|].
  assert (Text.contains a s = false /\ Text.contains b s = false) as [Ha' Hb'].
  { cbn [Text.contains] in Ha, Hb. apply orb_false_iff in Ha, Hb. tauto. }
  destruct skip as [|k]; [|apply IH; assumption].
  rewrite !find_app_last by (apply contains_prefix_false; assumption).
  destruct (find (fun p => String.prefix p (String c s)) ws); [|reflexivity].
  apply IH; assumption.
Qed.

(** strings.TrimSpace and String.prototype.trim agree on a text in which
    neither U+0085 nor U+FEFF occurs. *)
Lemma TrimSpace_trim (s : string) :
  Text.contains (Text.bytes [194; 133]) s = false ->
  Text.contains (Text.bytes [239; 187; 191]) s = false ->
  Text.TrimSpace s = Text.trim s.
Proof.
  intros Hn Hb. unfold Text.TrimSpace, Text.trim, Text.TrimLeft, Text.TrimRight,
    Text.go_space, Text.js_space.
  rewrite (strip_without _ _ _ s Hn Hb 0).
  destruct (strip_suffix (Text.white_space_common ++ [Text.bytes [239; 187; 191]]) s 0)
    as [before Hs].
  rewrite Hs in Hn, Hb. apply contains_suffix in Hn, Hb.
  rewrite !map_app. cbn [map].
  rewrite (strip_without _ _ _ _ (contains_rev _ _ Hn) (contains_rev _ _ Hb) 0).
  reflexivity.
Qed.

(** X22.  On an element with at most one price node whose text holds
    neither U+0085 (white space for Go alone) nor U+FEFF (white space for
    JavaScript alone) the two variants read the same price: the Price of
    the listing the Go callback appends is the price of the record
    main.js builds for the element. *)
Theorem extracted_price_agrees :
  forall (now : Z) (s : Dom.node) (l : Go.Listing),
    Go.each_result now s = Go.Appended l ->
    List.length (Dom.Find Dom.sel_priceinfo s) <= 1 ->
    Text.contains (Text.bytes [194; 133])
                  (Dom.SelectionText (Dom.Find Dom.sel_priceinfo s)) = false ->
    Text.contains (Text.bytes [239; 187; 191])
                  (Dom.SelectionText (Dom.Find Dom.sel_priceinfo s)) = false ->
    Js.price (Js.item_of s) = Go.Price l.
Proof.
  intros now s l H Hlen Hn Hb. unfold Go.each_result in H.
  destruct (Dom.SelectionAttr "href" (Dom.Find Dom.sel_anchor s)); [|discriminate].
  destruct (nth_error _ 1); [|discriminate].
  inversion H; subst; clear H. cbn [Go.Price].
  rewrite (TrimSpace_trim _ Hn Hb).
  unfold Js.item_of, Dom.querySelector, Dom.SelectionText. cbn [Js.price].
  destruct (Dom.Find Dom.sel_priceinfo s) as [|e [|e' rest]]; cbn [List.length] in Hlen;
    try lia; reflexivity.
Qed.

Lemma extracted_price_agrees_witness :
  Go.each_result 0 Fixture.couch_item = Go.Appended (Fixture.couch 0) /\
  List.length (Dom.Find Dom.sel_priceinfo Fixture.couch_item) <= 1 /\
  Text.contains (Text.bytes [194; 133])
                (Dom.SelectionText (Dom.Find Dom.sel_priceinfo Fixture.couch_item)) = false /\
  Text.contains (Text.bytes [239; 187; 191])
                (Dom.SelectionText (Dom.Find Dom.sel_priceinfo Fixture.couch_item)) = false /\
  Js.price (Js.item_of Fixture.couch_item) = Go.Price (Fixture.couch 0).
Proof.
  assert (List.length (Dom.Find Dom.sel_priceinfo Fixture.couch_item) <= 1) as Hlen
    by (vm_compute; repeat constructor).
  split; [reflexivity|]. split; [exact Hlen|]. split; [reflexivity|]. split; [reflexivity|].
  exact (extracted_price_agrees 0 Fixture.couch_item (Fixture.couch 0) eq_refl Hlen
           eq_refl eq_refl).
Defined.

Lemma filter_none {A : Type} (f : A -> bool) (l : list A) :
  (forall x, In x l -> f x = false) -> filter f l = [].
Proof.
  induction l as [|x l IH]; intros H; simpl; [reflexivity|].
  rewrite (H x (or_introl eq_refl)). apply IH. intros y Hy. apply H. right. exact Hy.
Qed.

Lemma filter_delete_range (w : Go.World) (listings : list Go.Listing) (i : nat) (db : Go.DB) :
  filter Spec.is_delete (snd (Go.range w i db listings)) = [] /\
  filter Spec.is_sleep (snd (Go.range w i db listings)) = [].
Proof.
  pose proof (go_range_events w listings i db) as H.
  rewrite forallb_forall in H.
  split; apply filter_none; intros e He; specialize (H e He);
    apply negb_true_iff, orb_false_iff in H; tauto.
Qed.

(** X23.  The DELETE and the sleep happen exactly once in a pass whose
    scrape returned listings, also when INSERTs, requests or the DELETE
    itself fail, and not at all in a pass whose scrape failed or
    panicked. *)
Theorem go_tick_one_delete_one_sleep :
  forall (db : Go.DB) (w : Go.World),
    filter Spec.is_delete (snd (fst (Go.tick db w))) =
      match Go.scrapeListings w with
      | Go.Listings _ => [Go.ExecDelete]
      | _ => []
      end /\
    filter Spec.is_sleep (snd (fst (Go.tick db w))) =
      match Go.scrapeListings w with
      | Go.Listings listings => [Go.Slept (Go.delay (Z.of_nat (List.length listings)))]
      | _ => []
      end.
Proof.
  intros db w. destruct (Go.scrapeListings w) as [ls|err|] eqn:E.
  - rewrite (go_tick_listings db w ls E). cbn [fst snd].
    destruct (filter_delete_range w ls 0 db) as [Hd Hs].
    rewrite !filter_app, Hd, Hs.
    destruct (Go.delete_error w); split; reflexivity.
  - unfold Go.tick. rewrite E. split; reflexivity.
  - unfold Go.tick. rewrite E. split; reflexivity.
Qed.
